(** * The item resource server of [http-demo/server.js]

    A shallow embedding of the Express handlers of [src/http-demo/server.js]
    and of the fragment of JavaScript they rely on: strings as sequences of
    UTF-16 code units, [String.prototype.trim], numbers as IEEE 754 binary64
    values, [Number(...)] coercion of the values a parsed request body can
    hold, and the in-memory store ([nextId], [items]) threaded through the
    handlers as explicit state. *)

From Stdlib Require Import ZArith NArith List String Ascii Bool Lia.
From Stdlib Require Import Floats.SpecFloat DecimalString DecimalPos.
Import ListNotations.

Local Open Scope Z_scope.

(** ** The JavaScript fragment *)

Module JS.

(** *** Strings

    A JavaScript string is a sequence of 16-bit code units.  [str] embeds an
    ASCII literal. *)

Definition code_unit := N.
Definition jsstring := list code_unit.

Definition str (s : string) : jsstring :=
  List.map N_of_ascii (list_ascii_of_string s).

Definition code_unit_eqb : code_unit -> code_unit -> bool := N.eqb.

Fixpoint jsstring_eqb (a b : jsstring) : bool :=
  match a, b with
  | [], [] => true
  | x :: a', y :: b' => code_unit_eqb x y && jsstring_eqb a' b'
  | _, _ => false
  end.

(** WhiteSpace and LineTerminator code points, the set stripped by [trim]
    and skipped by the string-to-number conversion: TAB, LF, VT, FF, CR, SP,
    NBSP, the Unicode space separators, LS, PS and ZWNBSP. *)
Definition isWhiteSpace (c : code_unit) : bool :=
  let c := Z.of_N c in
  ((9 <=? c) && (c <=? 13))
  || (c =? 32) || (c =? 160) || (c =? 5760)
  || ((8192 <=? c) && (c <=? 8202))
  || (c =? 8232) || (c =? 8233) || (c =? 8239) || (c =? 8287)
  || (c =? 12288) || (c =? 65279).

Fixpoint trimStart (s : jsstring) : jsstring :=
  match s with
  | [] => []
  | c :: s' => if isWhiteSpace c then trimStart s' else s
  end.

Definition trimEnd (s : jsstring) : jsstring := rev (trimStart (rev s)).

(** [s.trim()] *)
Definition trim (s : jsstring) : jsstring := trimEnd (trimStart s).

(** *** Numbers

    A Number is a binary64 value: [prec = 53], [emax = 1024]. *)

Definition number := spec_float.

Definition prec : Z := 53.
Definition emax : Z := 1024.

Definition NaN : number := S754_nan.
Definition pos_zero : number := S754_zero false.
Definition neg_zero : number := S754_zero true.
Definition Infinity (neg : bool) : number := S754_infinity neg.

(** The Number nearest to the integer [z] (ties to even). *)
Definition of_Z (z : Z) : number := binary_normalize prec emax z 0 false.

(** [Number.isFinite(x)] for a Number [x]. *)
Definition isFinite (x : number) : bool :=
  match x with
  | S754_zero _ | S754_finite _ _ _ => true
  | S754_infinity _ | S754_nan => false
  end.

(** [x < 0] *)
Definition lt_zero (x : number) : bool :=
  match x with
  | S754_infinity true | S754_finite true _ _ => true
  | _ => false
  end.

(** The integer a Number denotes, when it denotes one ([-0] denotes 0). *)
Definition int_value (x : number) : option Z :=
  match x with
  | S754_zero _ => Some 0
  | S754_finite s m e =>
      let v := if s then Z.neg m else Z.pos m in
      if 0 <=? e then Some (v * 2 ^ e)
      else if v mod 2 ^ (- e) =? 0 then Some (v / 2 ^ (- e))
      else None
  | S754_infinity _ | S754_nan => None
  end.

(** [x === z] for a Number [x] and an integer-valued Number held as [z]:
    equality of the mathematical values, so [-0 === 0], and NaN and the
    infinities equal nothing. *)
Definition eq_int (x : number) (z : Z) : bool :=
  match int_value x with
  | Some v => v =? z
  | None => false
  end.

(** *** String to Number (StringToNumber, StringNumericLiteral) *)

Definition digit_of (base : Z) (c : code_unit) : option Z :=
  let c := Z.of_N c in
  let v := if (48 <=? c) && (c <=? 57) then c - 48
           else if (97 <=? c) && (c <=? 102) then c - 87
           else if (65 <=? c) && (c <=? 70) then c - 55
           else base in
  if v <? base then Some v else None.

(** The longest prefix of digits in [base], most significant first, and the
    rest of the string. *)
Fixpoint span_digits (base : Z) (s : jsstring) : list Z * jsstring :=
  match s with
  | [] => ([], [])
  | c :: s' =>
      match digit_of base c with
      | Some d => let '(ds, r) := span_digits base s' in (d :: ds, r)
      | None => ([], s)
      end
  end.

Definition digits_value (base : Z) (ds : list Z) : Z :=
  fold_left (fun acc d => acc * base + d) ds 0.

Definition is_nil {A} (l : list A) : bool :=
  match l with [] => true | _ => false end.

(** The Number for [(-1)^neg * d * 10^x], rounded to nearest, ties to even. *)
Definition round_decimal (neg : bool) (d x : Z) : number :=
  match d with
  | Zpos p =>
      if 0 <=? x then binary_round prec emax neg (Z.to_pos (Z.pos p * 10 ^ x)) 0
      else SFdiv prec emax (S754_finite neg p 0)
                           (S754_finite false (Z.to_pos (10 ^ (- x))) 0)
  | _ => S754_zero neg
  end.

Definition is_char (a : ascii) (c : code_unit) : bool :=
  code_unit_eqb c (N_of_ascii a).

(** ExponentPart, optional: the decimal exponent, provided nothing follows
    it. *)
Definition parse_exponent (s : jsstring) : option Z :=
  match s with
  | [] => Some 0
  | c :: r =>
      if is_char "e" c || is_char "E" c then
        let '(neg, r') :=
          match r with
          | c' :: r' =>
              if is_char "+" c' then (false, r')
              else if is_char "-" c' then (true, r')
              else (false, r)
          | [] => (false, r)
          end in
        let '(ds, rest) := span_digits 10 r' in
        if is_nil ds || negb (is_nil rest) then None
        else Some (if neg then - digits_value 10 ds else digits_value 10 ds)
      else None
  end.

(** StrUnsignedDecimalLiteral: [Infinity], or digits with an optional
    fraction and exponent; anything else is NaN. *)
Definition parse_unsigned (neg : bool) (s : jsstring) : number :=
  if jsstring_eqb s (str "Infinity") then Infinity neg
  else
    let '(ip, r1) := span_digits 10 s in
    let '(fp, r2) :=
      match r1 with
      | c :: r => if is_char "." c then span_digits 10 r else ([], r1)
      | [] => ([], [])
      end in
    if is_nil ip && is_nil fp then NaN
    else
      match parse_exponent r2 with
      | Some x =>
          round_decimal neg (digits_value 10 (ip ++ fp))
                        (x - Z.of_nat (List.length fp))
      | None => NaN
      end.

(** NonDecimalIntegerLiteral after its [0x], [0o] or [0b] prefix. *)
Definition parse_radix (base : Z) (s : jsstring) : number :=
  let '(ds, rest) := span_digits base s in
  if is_nil ds || negb (is_nil rest) then NaN
  else of_Z (digits_value base ds).

Definition radix_of (c : code_unit) : option Z :=
  if is_char "x" c || is_char "X" c then Some 16
  else if is_char "o" c || is_char "O" c then Some 8
  else if is_char "b" c || is_char "B" c then Some 2
  else None.

Definition parse_signed (s : jsstring) : number :=
  match s with
  | c :: r =>
      if is_char "+" c then parse_unsigned false r
      else if is_char "-" c then parse_unsigned true r
      else parse_unsigned false s
  | [] => pos_zero
  end.

(** [Number(s)] for a string [s]. *)
Definition StringToNumber (s : jsstring) : number :=
  match trim s with
  | [] => pos_zero
  | [c] => parse_signed [c]
  | z :: c :: r =>
      match (if is_char "0" z then radix_of c else None) with
      | Some base => parse_radix base r
      | None => parse_signed (z :: c :: r)
      end
  end.

(** *** Values of a parsed request body *)

#[warnings="-register-all"]
Inductive value : Type :=
| VUndefined
| VNull
| VBool (b : bool)
| VNumber (n : number)
| VString (s : jsstring)
| VArray (elems : list value)
| VObject (props : list (jsstring * value)).

(** Own property lookup on the property list of a parsed object; of two
    entries with one key the later one is the property's value. *)
Definition get_prop (key : jsstring) (props : list (jsstring * value)) : value :=
  match find (fun kv => jsstring_eqb (fst kv) key) (rev props) with
  | Some (_, v) => v
  | None => VUndefined
  end.

Definition has_own (key : jsstring) (props : list (jsstring * value)) : bool :=
  existsb (fun kv => jsstring_eqb (fst kv) key) props.

(** Abrupt completion: the only exception the handlers can raise. *)
Inductive error := TypeError.

Inductive completion (A : Type) : Type :=
| Normal (a : A)
| Throw (e : error).
Arguments Normal {A} a.
Arguments Throw {A} e.

(** What [ToString] yields for an element of an array being joined, as far
    as [StringToNumber] can tell the results apart: the text of a Number,
    a given string, or some text that holds a comma. *)
Inductive text :=
| TNumber (n : number)
| TString (s : jsstring)
| TComma.

(** The text of [v] inside [Array.prototype.join].  A parsed object has only
    data properties: one named [toString] shadows [Object.prototype.toString]
    with a value that cannot be called, and the conversion throws; otherwise
    the text is [[object Object]].  [join] renders [null] and [undefined] as
    the empty string and puts a comma between two elements. *)
Fixpoint join_text (v : value) : completion text :=
  match v with
  | VUndefined | VNull => Normal (TString [])
  | VBool b => Normal (TString (str (if b then "true" else "false")))
  | VNumber n => Normal (TNumber n)
  | VString s => Normal (TString s)
  | VArray elems =>
      (fix join (l : list value) : completion text :=
         match l with
         | [] => Normal (TString [])
         | [x] => join_text x
         | x :: rest =>
             match join_text x with
             | Normal _ =>
                 match join rest with
                 | Normal _ => Normal TComma
                 | Throw e => Throw e
                 end
             | Throw e => Throw e
             end
         end) elems
  | VObject props =>
      if has_own (str "toString") props then Throw TypeError
      else Normal (TString (str "[object Object]"))
  end.

(** [StringToNumber] of such a text.  The text of a Number reads back as
    that Number, except that [-0] prints as [0]. *)
Definition text_number (t : text) : number :=
  match t with
  | TNumber (S754_zero _) => pos_zero
  | TNumber n => n
  | TString s => StringToNumber s
  | TComma => NaN
  end.

(** [Number(v)] *)
Definition ToNumber (v : value) : completion number :=
  match v with
  | VUndefined => Normal NaN
  | VNull => Normal pos_zero
  | VBool b => Normal (if b then of_Z 1 else pos_zero)
  | VNumber n => Normal n
  | VString s => Normal (StringToNumber s)
  | VArray _ | VObject _ =>
      match join_text v with
      | Normal t => Normal (text_number t)
      | Throw e => Throw e
      end
  end.

End JS.

(** ** The server *)

Module Server.
Import JS.

Local Open Scope string_scope.
Local Open Scope list_scope.
Local Open Scope Z_scope.

(** *** The in-memory store

    [nextId] and the [id] of an item are Numbers that only ever hold
    integers from 1 to [2^53], each of which a binary64 holds exactly.  They
    are kept as these integers. *)

Record item := { id : Z; name : jsstring; price : number }.

Record store := { nextId : Z; items : list item }.

(** What [nextId++] leaves in [nextId] when it held [n]: the Number nearest
    to [n + 1], ties to even.  Below [2^53] that is [n + 1].  At [2^53] the
    sum [2^53 + 1] lies half-way between the Numbers [2^53] and [2^53 + 2]
    and is rounded to [2^53]: the counter stays where it is.  ([None] stands
    for a sum beyond the largest Number, which the counter cannot reach.) *)
Definition increment (n : Z) : Z :=
  match int_value (of_Z (n + 1)) with
  | Some m => m
  | None => n + 1
  end.

Definition decimal (s : string) : number := StringToNumber (str s).

Definition seed : store :=
  {| nextId := 3;
     items := [ {| id := 1; name := str "Notebook"; price := decimal "4.5" |};
                {| id := 2; name := str "Pen"; price := decimal "1.25" |} ] |}.

(** [(x) => x.id === id] *)
Definition has_id (id0 : number) (x : item) : bool := eq_int id0 x.(id).

(** [findItem(id)]: the first item of the array with that id. *)
Definition findItem (id0 : number) (st : store) : option item :=
  find (has_id id0) st.(items).

(** [items.findIndex(p)], [-1] when no element satisfies [p]. *)
Fixpoint findIndex (p : item -> bool) (l : list item) : Z :=
  match l with
  | [] => -1
  | x :: l' =>
      if p x then 0
      else let i := findIndex p l' in if i =? -1 then -1 else i + 1
  end.

(** [items.splice(idx, 1)] for [0 <= idx]. *)
Definition splice1 (idx : Z) (l : list item) : list item :=
  firstn (Z.to_nat idx) l ++ skipn (S (Z.to_nat idx)) l.

(** Assignment to the fields of [existing], the object [findItem] returned:
    the array holds that same object, so its first element with the id is
    the one that changes. *)
Fixpoint update_first (p : item -> bool) (f : item -> item) (l : list item)
  : list item :=
  match l with
  | [] => []
  | x :: l' => if p x then f x :: l' else x :: update_first p f l'
  end.

Definition set_name (s : jsstring) (x : item) : item :=
  {| id := x.(id); name := s; price := x.(price) |}.

Definition set_price (n : number) (x : item) : item :=
  {| id := x.(id); name := x.(name); price := n |}.

Definition assign (id0 : number) (f : item -> item) (st : store) : store :=
  {| nextId := st.(nextId); items := update_first (has_id id0) f st.(items) |}.

(** *** Responses *)

(** The [message] of an error body: a fixed text, or the template
    [`No item with id ${id}`] with its Number. *)
Inductive message :=
| Text (s : string)
| NoItemWithId (id0 : number).

Inductive body :=
| Empty
| Send (type : string) (content : string)
| JsonError (error : string) (msg : message)
| JsonItem (it : item)
| JsonList (count : Z) (its : list item)
| JsonIndex (msg : string) (endpoints : list (string * string)).

(** [status], the headers the handler sets with [set] and [location], and
    what it sends. *)
Record response :=
  { status : Z; headers : list (string * string); content : body }.

Definition outcome : Type := completion response * store.

Definition show_int (z : Z) : string := NilZero.string_of_int (Z.to_int z).

Definition not_found (id0 : number) : response :=
  {| status := 404; headers := [];
     content := JsonError "not_found" (NoItemWithId id0) |}.

Definition bad_request (msg : string) : response :=
  {| status := 400; headers := [];
     content := JsonError "bad_request" (Text msg) |}.

(** [typeof name !== 'string' || name.trim() === ''] *)
Definition invalid_name (name0 : value) : bool :=
  match name0 with
  | VString s => is_nil (trim s)
  | _ => true
  end.

(** [name.trim()] for a [name] that passed the check above. *)
Definition trimmed (name0 : value) : jsstring :=
  match name0 with
  | VString s => trim s
  | _ => []
  end.

(** [!Number.isFinite(numericPrice) || numericPrice < 0] *)
Definition invalid_price (numericPrice : number) : bool :=
  negb (isFinite numericPrice) || lt_zero numericPrice.

Definition is_undefined (v : value) : bool :=
  match v with VUndefined => true | _ => false end.

(** The parsed body of a request, [req.body]: its properties. *)
Definition props := list (jsstring * value).

(** *** Handlers *)

(** [app.get('/items')] *)
Definition get_items (st : store) : outcome :=
  (Normal {| status := 200; headers := [("X-Demo", "items-list")];
             content := JsonList (Z.of_nat (List.length st.(items))) st.(items) |},
   st).

(** [app.get('/items/:id')] *)
Definition get_item (param : jsstring) (st : store) : outcome :=
  let id0 := StringToNumber param in
  match findItem id0 st with
  | None => (Normal (not_found id0), st)
  | Some it =>
      (Normal {| status := 200; headers := [("X-Demo", "items-get")];
                 content := JsonItem it |}, st)
  end.

(** [app.post('/items')] *)
Definition post_items (req_body : props) (st : store) : outcome :=
  let name0 := get_prop (str "name") req_body in
  let price0 := get_prop (str "price") req_body in
  if invalid_name name0 then
    (Normal (bad_request "name is required (string)"), st)
  else
    match ToNumber price0 with
    | Throw e => (Throw e, st)
    | Normal numericPrice =>
        if invalid_price numericPrice then
          (Normal (bad_request "price must be a non-negative number"), st)
        else
          let it := {| id := st.(nextId); name := trimmed name0;
                       price := numericPrice |} in
          (Normal {| status := 201;
                     headers := [("X-Demo", "items-create");
                                 ("Location", String.append "/items/" (show_int it.(id)))];
                     content := JsonItem it |},
           {| nextId := increment st.(nextId); items := st.(items) ++ [it] |})
    end.

(** Assignment to a field of [existing]: the object changes under that
    name and in the array alike. *)
Definition mutate (id0 : number) (f : item -> item) (existing : item * store)
  : item * store :=
  (f (fst existing), assign id0 f (snd existing)).

Definition ok (demo : string) (it : item) : response :=
  {| status := 200; headers := [("X-Demo", demo)]; content := JsonItem it |}.

(** [app.put('/items/:id')] *)
Definition put_item (param : jsstring) (req_body : props) (st : store) : outcome :=
  let id0 := StringToNumber param in
  match findItem id0 st with
  | None => (Normal (not_found id0), st)
  | Some existing =>
      let name0 := get_prop (str "name") req_body in
      let price0 := get_prop (str "price") req_body in
      if invalid_name name0 then
        (Normal (bad_request "name is required (string)"), st)
      else
        match ToNumber price0 with
        | Throw e => (Throw e, st)
        | Normal numericPrice =>
            if invalid_price numericPrice then
              (Normal (bad_request "price must be a non-negative number"), st)
            else
              let r1 := mutate id0 (set_name (trimmed name0)) (existing, st) in
              let r2 := mutate id0 (set_price numericPrice) r1 in
              (Normal (ok "items-put" (fst r2)), snd r2)
        end
  end.

(** [app.patch('/items/:id')] *)
Definition patch_item (param : jsstring) (req_body : props) (st : store) : outcome :=
  let id0 := StringToNumber param in
  match findItem id0 st with
  | None => (Normal (not_found id0), st)
  | Some existing =>
      let name0 := get_prop (str "name") req_body in
      let price0 := get_prop (str "price") req_body in
      if negb (is_undefined name0) && invalid_name name0 then
        (Normal (bad_request "name must be a non-empty string"), st)
      else
        let r1 := if is_undefined name0 then (existing, st)
                  else mutate id0 (set_name (trimmed name0)) (existing, st) in
        if is_undefined price0 then (Normal (ok "items-patch" (fst r1)), snd r1)
        else
          match ToNumber price0 with
          | Throw e => (Throw e, snd r1)
          | Normal numericPrice =>
              if invalid_price numericPrice then
                (Normal (bad_request "price must be a non-negative number"),
                 snd r1)
              else
                let r2 := mutate id0 (set_price numericPrice) r1 in
                (Normal (ok "items-patch" (fst r2)), snd r2)
          end
  end.

(** [app.delete('/items/:id')] *)
Definition delete_item (param : jsstring) (st : store) : outcome :=
  let id0 := StringToNumber param in
  let idx := findIndex (has_id id0) st.(items) in
  if idx =? -1 then (Normal (not_found id0), st)
  else
    (Normal {| status := 204; headers := [("X-Demo", "items-delete")];
               content := Empty |},
     {| nextId := st.(nextId); items := splice1 idx st.(items) |}).

(** [app.options('/items')] *)
Definition options_items (st : store) : outcome :=
  (Normal {| status := 204;
             headers := [("Allow", "GET,POST,OPTIONS");
                         ("X-Demo", "items-options")];
             content := Empty |}, st).

(** *** The root handler and content negotiation *)

Definition newline : string := String (ascii_of_nat 10) EmptyString.
Definition dquote : string := String (ascii_of_nat 34) EmptyString.

(** [lines.join('\n')] *)
Definition join_lines (lines : list string) : string :=
  String.concat newline lines.

Definition index_text : string :=
  join_lines
    [ "Express REST Demo"; EmptyString; "Try:";
      "  GET     /items";
      "  GET     /items/:id";
      "  POST    /items";
      "  PUT     /items/:id";
      "  PATCH   /items/:id";
      "  DELETE  /items/:id";
      "  HEAD    /items/:id";
      "  OPTIONS /items";
      "  GET     /page";
      "  ANY     /echo";
      EmptyString ].

Definition index_endpoints : list (string * string) :=
  [ ("GET", "/items"); ("GET", "/items/:id"); ("POST", "/items");
    ("PUT", "/items/:id"); ("PATCH", "/items/:id"); ("DELETE", "/items/:id");
    ("HEAD", "/items/:id"); ("OPTIONS", "/items"); ("GET", "/page");
    ("ANY", "/echo") ].

Definition xml_endpoint (e : string * string) : string :=
  String.concat EmptyString
    [ "    <endpoint><method>"; fst e; "</method><path>"; snd e;
      "</path></endpoint>" ].

Definition index_xml : string :=
  join_lines
    ([ String.concat EmptyString
         [ "<?xml version="; dquote; "1.0"; dquote; " encoding="; dquote;
           "UTF-8"; dquote; "?>" ];
       "<demo>";
       "  <message>Express REST Demo</message>";
       "  <endpoints>" ]
     ++ List.map xml_endpoint index_endpoints
     ++ [ "  </endpoints>"; "</demo>" ]).

Definition html_endpoint (e : string * string) : string :=
  String.concat EmptyString [ "  <li>"; fst e; " "; snd e; "</li>" ].

Definition index_html : string :=
  join_lines
    ([ "<h1>Express REST Demo</h1>";
       "<p>Try the following endpoints:</p>";
       "<ul>" ]
     ++ List.map html_endpoint index_endpoints
     ++ [ "</ul>" ]).

Section Root.

(** [req.accepts(type)] as a truth value: whether the request's [Accept]
    header allows [type]. *)
Variable accepts : string -> bool.

(** [app.get('/')] *)
Definition root : response :=
  if accepts "text/plain" then
    {| status := 200; headers := [];
       content := Send "text/plain" index_text |}
  else if accepts "application/json" then
    {| status := 200; headers := [];
       content := JsonIndex "Express REST Demo" index_endpoints |}
  else if accepts "application/xml" then
    {| status := 200; headers := [];
       content := Send "application/xml" index_xml |}
  else if accepts "text/html" then
    {| status := 200; headers := [];
       content := Send "text/html" index_html |}
  else
    {| status := 406; headers := [];
       content := Send "text/plain" "Not Acceptable" |}.

End Root.

(** What [req.accepts] answers, seen from the handler.  The request has no
    [Accept] header or an empty one ([None]), or it has a header that is not
    empty, given as the media ranges that parse out of its value, in their
    order ([Some ranges]; an entry that is no media range is left out): each
    [type/subtype] with the parameters written before [q], one entry for
    each name, a parameter without a value having the empty string, and the
    quality [q] in thousandths, 1000 when it is not written.

    A range matches a type when each of its two parts is the type's, the
    case of letters aside, or is the wildcard, and when each of its
    parameters is [*] or empty, the types asked for here having no
    parameters.  Of the matching ranges the most specific decides, then the
    one of higher quality, then the later one; the type is acceptable when
    that range has a positive quality.  Without a header, or with an empty
    one, every type is acceptable. *)
Record media_range :=
  { range_type : string; range_subtype : string;
    range_params : list (string * string); range_q : Z }.

Definition accept_header := option (list media_range).

(** [c.toLowerCase()] for a code unit below 256, as those of a header value
    are: the letters A to Z and the capital letters of Latin-1, 192 to 222
    without the multiplication sign 215, move up by 32. *)
Definition lower_char (c : ascii) : ascii :=
  let n := N_of_ascii c in
  if ((65 <=? n) && (n <=? 90)
      || (192 <=? n) && (n <=? 222) && negb (n =? 215))%N
  then ascii_of_N (n + 32) else c.

Fixpoint toLowerCase (s : string) : string :=
  match s with
  | EmptyString => EmptyString
  | String c s' => String (lower_char c) (toLowerCase s')
  end.

(** A parameter of a range agrees with a type that has no parameters. *)
Definition param_matches (kv : string * string) : bool :=
  String.eqb (snd kv) "*" || String.eqb (toLowerCase (snd kv)) EmptyString.

Definition split_type (t : string) : string * string :=
  match String.index 0 "/" t with
  | Some i => (String.substring 0 i t,
               String.substring (S i) (String.length t - S i) t)
  | None => (t, EmptyString)
  end.

(** The specificity of a matching range: 4 for an equal type, 2 for an equal
    subtype, 1 for parameters that agree. *)
Definition specify (t : string * string) (r : media_range) : option Z :=
  match
    (if String.eqb (toLowerCase r.(range_type)) (toLowerCase (fst t))
     then Some 4
     else if String.eqb r.(range_type) "*" then Some 0 else None),
    (if String.eqb (toLowerCase r.(range_subtype)) (toLowerCase (snd t))
     then Some 2
     else if String.eqb r.(range_subtype) "*" then Some 0 else None),
    (if is_nil r.(range_params) then Some 0
     else if forallb param_matches r.(range_params) then Some 1 else None)
  with
  | Some a, Some b, Some c => Some (a + b + c)
  | _, _, _ => None
  end.

(** The specificity and quality of the deciding range, starting from
    [(0, 0)]. *)
Fixpoint priority (t : string * string) (ranges : list media_range)
  (best : Z * Z) : Z * Z :=
  match ranges with
  | [] => best
  | r :: rest =>
      match specify t r with
      | Some s =>
          if (fst best <? s) || ((fst best =? s) && (snd best <=? r.(range_q)))
          then priority t rest (s, r.(range_q))
          else priority t rest best
      | None => priority t rest best
      end
  end.

Definition req_accepts (h : accept_header) (type : string) : bool :=
  match h with
  | None => true
  | Some ranges => 0 <? snd (priority (split_type type) ranges (0, 0))
  end.

(** *** Requests and runs of the server

    The routes that read or write the store, with the root and OPTIONS.
    [HEAD /items/:id], [/page], [/echo] and the fallback route write neither
    [nextId] nor [items]. *)

Inductive request :=
| GET_root (accept : accept_header)
| GET_items
| GET_item (param : jsstring)
| POST_items (req_body : props)
| PUT_item (param : jsstring) (req_body : props)
| PATCH_item (param : jsstring) (req_body : props)
| DELETE_item (param : jsstring)
| OPTIONS_items.

Definition handle (req : request) (st : store) : outcome :=
  match req with
  | GET_root accept => (Normal (root (req_accepts accept)), st)
  | GET_items => get_items st
  | GET_item param => get_item param st
  | POST_items req_body => post_items req_body st
  | PUT_item param req_body => put_item param req_body st
  | PATCH_item param req_body => patch_item param req_body st
  | DELETE_item param => delete_item param st
  | OPTIONS_items => options_items st
  end.

(** The item a response reports as created. *)
Definition created (r : completion response) : option item :=
  match r with
  | Normal {| status := 201; content := JsonItem it |} => Some it
  | _ => None
  end.

(** The ids issued so far, latest first; the seed items hold 1 and 2. *)
Definition issue (r : completion response) (issued : list Z) : list Z :=
  match created r with
  | Some it => it.(id) :: issued
  | None => issued
  end.

(** The stores the process can be in, each with the ids issued on the way:
    the seed store, and what any request leaves behind. *)
Inductive reachable : store -> list Z -> Prop :=
| reach_seed : reachable seed [1; 2]
| reach_step st issued req :
    reachable st issued ->
    reachable (snd (handle req st)) (issue (fst (handle req st)) issued).

(** *** Rendering

    [String(x)] where it is a plain decimal numeral or a name: for NaN, the
    infinities and the integers up to [2^53] in magnitude. *)
Definition NumberToString (x : number) : option string :=
  match x with
  | S754_nan => Some "NaN"
  | S754_infinity s => Some (if s then "-Infinity" else "Infinity")
  | _ =>
      match int_value x with
      | Some z => if Z.abs z <=? 2 ^ 53 then Some (show_int z) else None
      | None => None
      end
  end.

Definition render (m : message) : option string :=
  match m with
  | Text s => Some s
  | NoItemWithId id0 =>
      option_map (String.append "No item with id ") (NumberToString id0)
  end.

(** *** HEAD and the listening port *)

(** The characters Node's [setHeader] takes in a header value: TAB and the
    code units 32 to 126 and 128 to 255; any other makes it throw. *)
Definition header_char (c : code_unit) : bool :=
  let c := Z.of_N c in
  (c =? 9) || ((32 <=? c) && (c <=? 126)) || ((128 <=? c) && (c <=? 255)).

(** A string of code units below 256, as a header value. *)
Definition latin1 (s : jsstring) : string :=
  string_of_list_ascii (List.map ascii_of_N s).

(** [res.set(field, value)] after the headers [hs]. *)
Definition set_header (field : string) (value : jsstring)
  (hs : list (string * string)) : completion (list (string * string)) :=
  if forallb header_char value then Normal (hs ++ [(field, latin1 value)])
  else Throw TypeError.

(** [app.head('/items/:id')].  [sendStatus(404)] passes the text of the
    status to [send]. *)
Definition head_item (param : jsstring) (st : store) : outcome :=
  let id0 := StringToNumber param in
  match findItem id0 st with
  | None =>
      (Normal {| status := 404; headers := [];
                 content := Send "text/plain" "Not Found" |}, st)
  | Some it =>
      match set_header "X-Item-Id" (str (show_int it.(id))) [] with
      | Throw e => (Throw e, st)
      | Normal hs =>
          match set_header "X-Item-Name" it.(name) hs with
          | Throw e => (Throw e, st)
          | Normal hs' =>
              (Normal {| status := 200; headers := hs'; content := Empty |},
               st)
          end
      end
  end.

(** [process.env.PORT ? Number(process.env.PORT) : 3000]: the variable is
    absent or holds a string, and the empty string counts as absent. *)
Definition port (env_PORT : option jsstring) : number :=
  match env_PORT with
  | Some s => if is_nil s then of_Z 3000 else StringToNumber s
  | None => of_Z 3000
  end.

End Server.

(** ** Vocabulary of the properties *)

Import JS Server.

Local Open Scope string_scope.
Local Open Scope list_scope.
Local Open Scope Z_scope.

(** *** Stores *)

(** The ids in the collection, in its order. *)
Definition ids (st : store) : list Z := List.map id st.(items).

(** The three ways a request leaves the store: the ids and the counter as
    they were, one item appended under the counter's value and the counter
    incremented, or one item taken out. *)
Inductive effect (st : store) (r : completion response) (st' : store) : Prop :=
| effect_keep :
    ids st' = ids st -> nextId st' = nextId st -> created r = None ->
    effect st r st'
| effect_push it :
    created r = Some it -> id it = nextId st ->
    st' = {| nextId := increment (nextId st); items := items st ++ [it] |} ->
    effect st r st'
| effect_drop l1 x l2 :
    created r = None -> items st = l1 ++ x :: l2 ->
    st' = {| nextId := nextId st; items := l1 ++ l2 |} ->
    effect st r st'.

Ltac keep := apply effect_keep; reflexivity.

(** The invariant: the ids in the collection are pairwise distinct, and they
    and the ids issued so far are all below the counter. *)
Definition inv (st : store) (issued : list Z) : Prop :=
  NoDup (ids st)
  /\ Forall (fun j => j < nextId st) (ids st)
  /\ Forall (fun j => j < nextId st) issued.

(** The store whose array is [l1 ++ x :: l2], [x] being the first item with
    the id [id0]. *)
Definition at_item (id0 : number) (st : store) (l1 : list item) (x : item)
  (l2 : list item) : Prop :=
  items st = l1 ++ x :: l2
  /\ Forall (fun y => has_id id0 y = false) l1
  /\ has_id id0 x = true.

(** The store [st] with [l1 ++ x :: l2] for its array. *)
Definition with_item (st : store) (l1 : list item) (x : item) (l2 : list item)
  : store :=
  {| nextId := nextId st; items := l1 ++ x :: l2 |}.

(** The digits of a decimal numeral, most significant first. *)
Fixpoint udigits (d : Decimal.uint) : list Z :=
  match d with
  | Decimal.Nil => []
  | Decimal.D0 d => 0 :: udigits d
  | Decimal.D1 d => 1 :: udigits d
  | Decimal.D2 d => 2 :: udigits d
  | Decimal.D3 d => 3 :: udigits d
  | Decimal.D4 d => 4 :: udigits d
  | Decimal.D5 d => 5 :: udigits d
  | Decimal.D6 d => 6 :: udigits d
  | Decimal.D7 d => 7 :: udigits d
  | Decimal.D8 d => 8 :: udigits d
  | Decimal.D9 d => 9 :: udigits d
  end.

(** *** The validation rule, in the words of the specification *)

(** [name] is a string that is not empty after trimming; [s'] is what is
    stored for it. *)
Definition name_ok (v : value) (s' : jsstring) : Prop :=
  exists s, v = VString s /\ trim s <> [] /\ s' = trim s.

(** [name] is not a string, or is empty after trimming. *)
Definition name_bad (v : value) : Prop :=
  forall s, v = VString s -> trim s = [].

(** [price] coerces to the finite Number [n >= 0]. *)
Definition price_ok (v : value) (n : number) : Prop :=
  ToNumber v = Normal n /\ isFinite n = true /\ lt_zero n = false.

(** [price] coerces to a Number that is not finite or is negative. *)
Definition price_bad (v : value) : Prop :=
  exists n, ToNumber v = Normal n /\ (isFinite n = false \/ lt_zero n = true).


(** *** Responses *)

(** The answer to a Create that succeeds: 201, the item, and its URL under
    [Location]. *)
Definition created_response (it : item) : response :=
  {| status := 201;
     headers := [("X-Demo", "items-create");
                 ("Location", String.append "/items/" (show_int it.(id)))];
     content := JsonItem it |}.

(** The formats in the order the root handler asks for them. *)
Definition priority_order : list string :=
  [ "text/plain"; "application/json"; "application/xml"; "text/html" ].

(** The endpoint index in a format. *)
Definition index_in (type : string) : body :=
  if String.eqb type "text/plain" then Send "text/plain" index_text
  else if String.eqb type "application/json" then
    JsonIndex "Express REST Demo" index_endpoints
  else if String.eqb type "application/xml" then
    Send "application/xml" index_xml
  else Send "text/html" index_html.

(** *** Sample requests *)

(** The seed items. *)
Definition notebook : item :=
  {| id := 1; name := str "Notebook"; price := decimal "4.5" |}.

Definition pen : item :=
  {| id := 2; name := str "Pen"; price := decimal "1.25" |}.

(** The body [{name: "Pencil", price: {toString: null}}]. *)
Definition unconvertible_price : props :=
  [ (str "name", VString (str "Pencil"));
    (str "price", VObject [(str "toString", VNull)]) ].

(** The body [{name: " Pencil ", price: "2"}]. *)
Definition pencil : props :=
  [ (str "name", VString (str " Pencil ")); (str "price", VString (str "2")) ].


(** The body [{name: "Pencil", price: -1}]. *)
Definition negative_price : props :=
  [ (str "name", VString (str "Pencil"));
    (str "price", VNumber (decimal "-1")) ].

(** The body [{name: "Marker", price: 2.75}]. *)
Definition marker : props :=
  [ (str "name", VString (str "Marker"));
    (str "price", VNumber (decimal "2.75")) ].


(** [Accept: application/json] *)
Definition accept_json : accept_header :=
  Some [ {| range_type := "application"; range_subtype := "json";
            range_params := []; range_q := 1000 |} ].

(** [Accept: application/x-foo] *)
Definition accept_x_foo : accept_header :=
  Some [ {| range_type := "application"; range_subtype := "x-foo";
            range_params := []; range_q := 1000 |} ].

(** 1 = 2^52 * 2^-52 and 2.75 = 11 * 2^49 * 2^-51, as binary64 values. *)
Definition one : number := S754_finite false 4503599627370496 (-52).
Definition two_point_75 : number := S754_finite false 6192449487634432 (-51).


(** *** Further vocabulary *)

(** An item as the data model wants it: a positive [id], a [name] that is
    not empty and is its own trimming, a finite [price] that is not
    negative. *)
Definition good_item (x : item) : Prop :=
  1 <= id x
  /\ name x <> [] /\ trim (name x) = name x
  /\ isFinite (price x) = true /\ lt_zero (price x) = false.

(** [v] is, or holds through arrays, an object with a [toString] property of
    its own. *)
Fixpoint unconvertible (v : value) : bool :=
  match v with
  | VArray elems => existsb unconvertible elems
  | VObject props => has_own (str "toString") props
  | _ => false
  end.

Definition throws {A : Type} (c : completion A) : bool :=
  match c with Throw _ => true | Normal _ => false end.

(** The status of an answer; [None] when the handler threw. *)
Definition status_of (r : completion response) : option Z :=
  match r with Normal resp => Some (status resp) | Throw _ => None end.

(** The answer is a 2xx. *)
Definition succeeded (r : completion response) : bool :=
  match r with
  | Normal resp => (200 <=? status resp) && (status resp <? 300)
  | Throw _ => false
  end.

Definition is_patch (req : request) : bool :=
  match req with PATCH_item _ _ => true | _ => false end.

(** The answer is a 404. *)
Definition is_404 (r : completion response) : bool :=
  match status_of r with Some 404 => true | _ => false end.

(** No item of the store has the id [id0]. *)
Definition absent (id0 : number) (st : store) : bool :=
  match findItem id0 st with None => true | Some _ => false end.

(** What an answer sends; [None] when the handler threw. *)
Definition body_of (r : completion response) : option body :=
  match r with Normal resp => Some (content resp) | Throw _ => None end.

(** The body [{name: <U+65E5 U+672C>, price: 1}], a name outside Latin-1. *)
Definition wide_name : props :=
  [ (str "name", VString [26085%N; 26412%N]); (str "price", VNumber one) ].

(** *** The routes, in the order the source registers them

    A request reaches the routes with a method and a path; the paths are told
    apart by the pattern they match. *)
Inductive verb := GET | HEAD | POST | PUT | PATCH | DELETE | OPTIONS | OTHER.

Inductive pattern :=
| Pat_root      (* '/' *)
| Pat_page      (* '/page' *)
| Pat_echo      (* '/echo' *)
| Pat_items     (* '/items' *)
| Pat_item.     (* '/items/:id' *)

Inductive handler :=
| Run_root | Run_page | Run_echo | Run_list | Run_get | Run_head | Run_post
| Run_put | Run_patch | Run_delete | Run_options | Run_fallback.

(** [app.METHOD(path, handler)]; [None] for [app.all]. *)
Record route :=
  { route_verb : option verb; route_pattern : pattern;
    route_handler : handler }.

Definition routes : list route :=
  [ {| route_verb := Some GET; route_pattern := Pat_root;
       route_handler := Run_root |};
    {| route_verb := Some GET; route_pattern := Pat_page;
       route_handler := Run_page |};
    {| route_verb := None; route_pattern := Pat_echo;
       route_handler := Run_echo |};
    {| route_verb := Some GET; route_pattern := Pat_items;
       route_handler := Run_list |};
    {| route_verb := Some GET; route_pattern := Pat_item;
       route_handler := Run_get |};
    {| route_verb := Some HEAD; route_pattern := Pat_item;
       route_handler := Run_head |};
    {| route_verb := Some POST; route_pattern := Pat_items;
       route_handler := Run_post |};
    {| route_verb := Some PUT; route_pattern := Pat_item;
       route_handler := Run_put |};
    {| route_verb := Some PATCH; route_pattern := Pat_item;
       route_handler := Run_patch |};
    {| route_verb := Some DELETE; route_pattern := Pat_item;
       route_handler := Run_delete |};
    {| route_verb := Some OPTIONS; route_pattern := Pat_items;
       route_handler := Run_options |} ].

Definition verb_eqb (a b : verb) : bool :=
  match a, b with
  | GET, GET | HEAD, HEAD | POST, POST | PUT, PUT | PATCH, PATCH
  | DELETE, DELETE | OPTIONS, OPTIONS | OTHER, OTHER => true
  | _, _ => false
  end.

Definition pattern_eqb (a b : pattern) : bool :=
  match a, b with
  | Pat_root, Pat_root | Pat_page, Pat_page | Pat_echo, Pat_echo
  | Pat_items, Pat_items | Pat_item, Pat_item => true
  | _, _ => false
  end.

(** Whether a route takes a method: [app.all] takes every one, and in
    Express a route made by [app.get] also takes HEAD. *)
Definition takes (r : option verb) (v : verb) : bool :=
  match r with
  | None => true
  | Some GET => verb_eqb v GET || verb_eqb v HEAD
  | Some u => verb_eqb u v
  end.

(** The handler that answers: that of the first route, in the order of
    registration, whose pattern the path matches and which takes the method;
    the last middleware, which answers 404, when there is none.  [None] for
    the path stands for a path that matches no pattern. *)
Definition dispatch (v : verb) (p : option pattern) : handler :=
  match p with
  | None => Run_fallback
  | Some pat =>
      match find (fun r => pattern_eqb (route_pattern r) pat
                           && takes (route_verb r) v) routes with
      | Some r => route_handler r
      | None => Run_fallback
      end
  end.

(** [lo + n - 1; ...; lo + 1; lo] *)
Definition countdown (lo n : nat) : list Z :=
  List.map Z.of_nat (rev (seq lo n)).

(** ** Properties *)

(** *** Searching and updating the array *)

Section Arrays.

Variable p : item -> bool.

(** [find] stops at the first element that satisfies [p]. *)
Lemma find_split (l : list item) (x : item) :
  find p l = Some x ->
  exists l1 l2,
    l = l1 ++ x :: l2 /\ p x = true /\ Forall (fun y => p y = false) l1.
Proof.
  induction l as [|a l IH]; simpl; [discriminate|].
  destruct (p a) eqn:Ha.
  - intros [= ->]. exists [], l. repeat split; auto.
  - intros H. destruct (IH H) as (l1 & l2 & -> & Hx & Hl1).
    exists (a :: l1), l2. repeat split; auto.
Qed.

Lemma find_first (l1 l2 : list item) (x : item) :
  Forall (fun y => p y = false) l1 -> p x = true ->
  find p (l1 ++ x :: l2) = Some x.
Proof.
  induction 1 as [|a l1 Ha _ IH]; simpl; intros Hx.
  - now rewrite Hx.
  - rewrite Ha. auto.
Qed.

Lemma find_none_iff (l : list item) :
  find p l = None <-> Forall (fun y => p y = false) l.
Proof.
  induction l as [|a l IH]; simpl.
  - split; auto.
  - destruct (p a) eqn:Ha; split; intros H.
    + discriminate.
    + inversion H; congruence.
    + constructor; [assumption | now apply IH].
    + inversion H; now apply IH.
Qed.

Lemma update_first_split (f : item -> item) (l1 l2 : list item) (x : item) :
  Forall (fun y => p y = false) l1 -> p x = true ->
  update_first p f (l1 ++ x :: l2) = l1 ++ f x :: l2.
Proof.
  induction 1 as [|a l1 Ha _ IH]; simpl; intros Hx.
  - now rewrite Hx.
  - rewrite Ha. now rewrite IH.
Qed.

Lemma findIndex_split (l1 l2 : list item) (x : item) :
  Forall (fun y => p y = false) l1 -> p x = true ->
  findIndex p (l1 ++ x :: l2) = Z.of_nat (List.length l1).
Proof.
  induction 1 as [|a l1 Ha _ IH]; intros Hx.
  - simpl. now rewrite Hx.
  - cbn [app findIndex List.length]. rewrite Ha, (IH Hx).
    destruct (Z.of_nat (List.length l1) =? -1) eqn:E; lia.
Qed.

Lemma findIndex_none (l : list item) :
  find p l = None -> findIndex p l = -1.
Proof.
  induction l as [|a l IH]; simpl; [reflexivity|].
  destruct (p a); [discriminate|].
  intros H. now rewrite (IH H).
Qed.

Lemma findIndex_found (l : list item) :
  findIndex p l <> -1 -> exists x, find p l = Some x.
Proof.
  destruct (find p l) eqn:E; [eauto|].
  intros H. now apply findIndex_none in E.
Qed.

End Arrays.

Lemma splice1_split (l1 l2 : list item) (x : item) :
  splice1 (Z.of_nat (List.length l1)) (l1 ++ x :: l2) = l1 ++ l2.
Proof.
  unfold splice1. rewrite Nat2Z.id.
  rewrite firstn_app, Nat.sub_diag, firstn_all. simpl firstn.
  rewrite app_nil_r. f_equal.
  replace (S (List.length l1)) with (List.length (l1 ++ [x])) by
    (rewrite length_app; simpl; lia).
  replace (l1 ++ x :: l2) with ((l1 ++ [x]) ++ l2) by
    (now rewrite <- app_assoc).
  rewrite skipn_app, Nat.sub_diag, skipn_all. reflexivity.
Qed.

Lemma map_id_update_first (p : item -> bool) (f : item -> item) (l : list item) :
  (forall x, id (f x) = id x) ->
  List.map id (update_first p f l) = List.map id l.
Proof.
  intros Hf. induction l as [|a l IH]; simpl; [reflexivity|].
  destruct (p a); simpl; [now rewrite Hf | now rewrite IH].
Qed.

(** *** What a request does to the store *)

Lemma set_name_id (s : jsstring) (x : item) : id (set_name s x) = id x.
Proof. reflexivity. Qed.

Lemma set_price_id (n : number) (x : item) : id (set_price n x) = id x.
Proof. reflexivity. Qed.

Lemma post_items_effect (req_body : props) (st : store) :
  effect st (fst (post_items req_body st)) (snd (post_items req_body st)).
Proof.
  unfold post_items.
  destruct (invalid_name _); [keep|].
  destruct (ToNumber _) as [n|e]; [|keep].
  destruct (invalid_price n); [keep|].
  eapply effect_push; reflexivity.
Qed.

Lemma put_item_effect (param : jsstring) (req_body : props) (st : store) :
  effect st (fst (put_item param req_body st))
         (snd (put_item param req_body st)).
Proof.
  unfold put_item.
  destruct (findItem _ st) as [existing|]; [|keep].
  destruct (invalid_name _); [keep|].
  destruct (ToNumber _) as [n|e]; [|keep].
  destruct (invalid_price n); [keep|].
  apply effect_keep; try reflexivity; unfold mutate; simpl.
  unfold ids, assign; simpl.
  now rewrite !map_id_update_first.
Qed.

Lemma patch_item_effect (param : jsstring) (req_body : props) (st : store) :
  effect st (fst (patch_item param req_body st))
         (snd (patch_item param req_body st)).
Proof.
  unfold patch_item.
  destruct (findItem _ st) as [existing|]; [|keep].
  destruct (negb _ && _); [keep|].
  destruct (is_undefined (get_prop (str "name") req_body));
    destruct (is_undefined (get_prop (str "price") req_body));
    try keep;
    try (destruct (ToNumber _) as [n|e]; [destruct (invalid_price n)|]);
    try keep;
    apply effect_keep; try reflexivity; unfold mutate, ids, assign; simpl;
    now rewrite !map_id_update_first.
Qed.

Lemma delete_item_effect (param : jsstring) (st : store) :
  effect st (fst (delete_item param st)) (snd (delete_item param st)).
Proof.
  unfold delete_item.
  destruct (findIndex _ _ =? -1) eqn:E; [keep|].
  apply Z.eqb_neq in E.
  destruct (findIndex_found _ _ E) as [x Hx].
  destruct (find_split _ _ _ Hx) as (l1 & l2 & Hl & Hpx & Hl1).
  apply (effect_drop _ _ _ l1 x l2); [reflexivity|assumption|].
  simpl. rewrite Hl at 1 2.
  now rewrite (findIndex_split _ _ _ _ Hl1 Hpx), splice1_split.
Qed.

Lemma handle_effect (req : request) (st : store) :
  effect st (fst (handle req st)) (snd (handle req st)).
Proof.
  destruct req; simpl.
  - apply effect_keep; try reflexivity.
    unfold root.
    repeat match goal with |- context [if ?b then _ else _] => destruct b end;
      reflexivity.
  - keep.
  - unfold get_item. destruct (findItem _ st); keep.
  - apply post_items_effect.
  - apply put_item_effect.
  - apply patch_item_effect.
  - apply delete_item_effect.
  - keep.
Qed.

(** *** Integers below [2^53] are binary64 values *)

Lemma digits2_bounds (p : positive) :
  2 ^ (Z.pos (digits2_pos p) - 1) <= Z.pos p < 2 ^ Z.pos (digits2_pos p).
Proof.
  induction p as [p IH | p IH |]; cbn [digits2_pos].
  - rewrite Pos2Z.inj_succ, Z.pow_succ_r by lia.
    replace (Z.succ (Z.pos (digits2_pos p)) - 1)
      with (Z.succ (Z.pos (digits2_pos p) - 1)) by lia.
    rewrite Z.pow_succ_r by lia. lia.
  - rewrite Pos2Z.inj_succ, Z.pow_succ_r by lia.
    replace (Z.succ (Z.pos (digits2_pos p)) - 1)
      with (Z.succ (Z.pos (digits2_pos p) - 1)) by lia.
    rewrite Z.pow_succ_r by lia. lia.
  - simpl. lia.
Qed.

Lemma digits2_le (p : positive) (n : Z) :
  Z.pos p < 2 ^ n -> Z.pos (digits2_pos p) <= n.
Proof.
  intros H. destruct (digits2_bounds p) as [Hlo _].
  destruct (Z.le_gt_cases (Z.pos (digits2_pos p)) n) as [|Hgt]; [assumption|].
  assert (2 ^ n <= 2 ^ (Z.pos (digits2_pos p) - 1)).
  { destruct (Z.le_gt_cases 0 n).
    - apply Z.pow_le_mono_r; lia.
    - rewrite Z.pow_neg_r in H by lia. lia. }
  lia.
Qed.

Lemma iter_xO_digits (p k : positive) :
  digits2_pos (Pos.iter xO p k) = (digits2_pos p + k)%positive.
Proof.
  induction k as [|k IH] using Pos.peano_ind.
  - simpl. now rewrite Pos.add_1_r.
  - rewrite Pos.iter_succ. cbn [digits2_pos]. rewrite IH. lia.
Qed.

Lemma iter_xO_value (p k : positive) :
  Z.pos (Pos.iter xO p k) = Z.pos p * 2 ^ Z.pos k.
Proof.
  induction k as [|k IH] using Pos.peano_ind.
  - simpl. lia.
  - rewrite Pos.iter_succ, Pos2Z.inj_succ, Z.pow_succ_r by lia.
    rewrite Pos2Z.inj_xO, IH. lia.
Qed.

(** A mantissa of 53 bits needs no rounding. *)
Lemma binary_round_aux_exact (m : positive) (e : Z) :
  digits2_pos m = 53%positive -> -1074 <= e <= 971 ->
  binary_round_aux prec emax false (Z.pos m) e loc_Exact
  = S754_finite false m e.
Proof.
  intros Hd He.
  assert (Hs : shr_fexp prec emax (Z.pos m) e loc_Exact
               = ({| shr_m := Z.pos m; shr_r := false; shr_s := false |}, e)).
  { unfold shr_fexp, fexp, emin, Zdigits2, prec, emax. rewrite Hd.
    replace (Z.max (53 + e - 53) (3 - 1024 - 53) - e) with 0 by lia.
    reflexivity. }
  unfold binary_round_aux. rewrite Hs.
  cbn [shr_m loc_of_shr_record round_nearest_even]. rewrite Hs.
  cbn [shr_m]. unfold emax, prec.
  destruct (e <=? 1024 - 53) eqn:E; [reflexivity|].
  apply Z.leb_gt in E. lia.
Qed.

(** The Number for a positive integer below [2^53] denotes that integer. *)
Lemma int_value_binary_round (p : positive) :
  Z.pos p < 2 ^ 53 ->
  int_value (binary_round prec emax false p 0) = Some (Z.pos p).
Proof.
  intros H. pose proof (digits2_le p 53 H) as Hd.
  unfold binary_round, shl_align, fexp, emin, prec, emax.
  replace (Z.max (Z.pos (digits2_pos p) + 0 - 53) (3 - 1024 - 53) - 0)
    with (Z.pos (digits2_pos p) - 53) by lia.
  replace (Z.max (Z.pos (digits2_pos p) + 0 - 53) (3 - 1024 - 53))
    with (Z.pos (digits2_pos p) - 53) by lia.
  destruct (Z.pos (digits2_pos p) - 53) as [|k|k] eqn:Ek; [|lia|].
  - fold prec emax. rewrite binary_round_aux_exact by lia.
    unfold int_value. simpl. f_equal. lia.
  - fold prec emax. rewrite binary_round_aux_exact.
    + unfold int_value.
      destruct (0 <=? Z.neg k) eqn:E; [apply Z.leb_le in E; lia|].
      rewrite iter_xO_value. cbn [Z.opp].
      rewrite Z_mod_mult, Z.eqb_refl, Z.div_mul; [reflexivity|].
      apply Z.pow_nonzero; lia.
    + rewrite iter_xO_digits. lia.
    + lia.
Qed.

(** *** The counter *)

(** The Number made from a positive integer up to [2^53] denotes it. *)
Lemma int_value_of_Z (z : Z) :
  0 < z <= 2 ^ 53 -> int_value (of_Z z) = Some z.
Proof.
  intros [Hlo Hhi]. destruct z as [|p|p]; try lia.
  destruct (Z.eq_dec (Z.pos p) (2 ^ 53)) as [E|E].
  - rewrite E. vm_compute. reflexivity.
  - unfold of_Z, binary_normalize. apply int_value_binary_round. lia.
Qed.

Lemma increment_below (n : Z) : 0 <= n < 2 ^ 53 -> increment n = n + 1.
Proof.
  intros H. unfold increment. rewrite int_value_of_Z; [reflexivity | lia].
Qed.

(** At [2^53] the counter stays. *)
Lemma increment_top : increment (2 ^ 53) = 2 ^ 53.
Proof. vm_compute. reflexivity. Qed.

Lemma increment_range (n : Z) :
  0 <= n <= 2 ^ 53 ->
  n <= increment n <= 2 ^ 53 /\ (increment n < 2 ^ 53 -> increment n = n + 1).
Proof.
  intros H. destruct (Z.eq_dec n (2 ^ 53)) as [->|Hne].
  - rewrite increment_top. lia.
  - rewrite increment_below by lia. lia.
Qed.

(** The counter never goes down and never passes [2^53]. *)
Lemma effect_counter (st st' : store) (r : completion response) :
  0 <= nextId st <= 2 ^ 53 -> effect st r st' ->
  nextId st <= nextId st' <= 2 ^ 53.
Proof.
  intros Hn [Hi Hnext Hc | it Hc Hid -> | l1 x l2 Hc Hl ->]; simpl;
    [lia | apply increment_range; lia | lia].
Qed.

Lemma reachable_counter (st : store) (issued : list Z) :
  reachable st issued -> 3 <= nextId st <= 2 ^ 53.
Proof.
  induction 1 as [|st issued req _ IH]; [simpl; lia|].
  assert (Hn : 0 <= nextId st <= 2 ^ 53) by lia.
  pose proof (effect_counter _ _ _ Hn (handle_effect req st)). lia.
Qed.

(** *** The invariant of the store *)

Lemma inv_seed : inv seed [1; 2].
Proof.
  unfold inv, ids; simpl. repeat split.
  - repeat constructor; simpl; intuition discriminate.
  - repeat constructor.
  - repeat constructor.
Qed.

Lemma Forall_lt_succ (n : Z) (l : list Z) :
  Forall (fun j => j < n) l -> Forall (fun j => j < n + 1) l.
Proof. apply Forall_impl. intros; lia. Qed.

Lemma NoDup_snoc (l : list Z) (x : Z) :
  NoDup l -> ~ In x l -> NoDup (l ++ [x]).
Proof.
  induction 1 as [|a l Ha _ IH]; simpl; intros Hx.
  - repeat constructor. auto.
  - constructor.
    + rewrite in_app_iff. simpl. intuition.
    + apply IH. intuition.
Qed.

(** A request keeps the invariant for as long as the counter it leaves is
    below [2^53]. *)
Lemma inv_effect (st st' : store) (r : completion response) (issued : list Z) :
  0 <= nextId st <= 2 ^ 53 -> nextId st' < 2 ^ 53 ->
  inv st issued -> effect st r st' -> inv st' (issue r issued).
Proof.
  intros Hn Hb (Hnd & Hids & Hiss) [Hi Hnext Hc | it Hc Hid -> | l1 x l2 Hc Hl ->];
    unfold issue; rewrite Hc.
  - unfold inv. rewrite Hi, Hnext. auto.
  - simpl in Hb. destruct (increment_range (nextId st) Hn) as [_ Hinc].
    specialize (Hinc Hb).
    unfold inv, ids in *. simpl. rewrite Hinc, map_app. simpl. repeat split.
    + apply NoDup_snoc; [assumption|].
      intros Hin. rewrite Forall_forall in Hids.
      apply Hids in Hin. lia.
    + apply Forall_app. split; [now apply Forall_lt_succ|].
      constructor; [lia|constructor].
    + constructor; [lia | now apply Forall_lt_succ].
  - unfold inv, ids in *. simpl. rewrite Hl in *.
    rewrite map_app in *. simpl in *. repeat split.
    + eapply NoDup_remove_1; eassumption.
    + apply Forall_app in Hids. destruct Hids as [H1 H2].
      inversion H2; subst. apply Forall_app; auto.
    + assumption.
Qed.

(** While the counter is below [2^53], the ids are distinct and below it. *)
Lemma reachable_inv (st : store) (issued : list Z) :
  reachable st issued -> nextId st < 2 ^ 53 -> inv st issued.
Proof.
  induction 1 as [|st issued req Hr IH]; intros Hb.
  - apply inv_seed.
  - pose proof (reachable_counter _ _ Hr) as Hn.
    assert (Hn' : 0 <= nextId st <= 2 ^ 53) by lia.
    pose proof (effect_counter _ _ _ Hn' (handle_effect req st)) as Hm.
    eapply inv_effect; [exact Hn' | exact Hb | apply IH; lia | apply handle_effect].
Qed.

(** The ids never pass the counter. *)
Lemma effect_ids_le (st st' : store) (r : completion response) :
  0 <= nextId st <= 2 ^ 53 ->
  Forall (fun j => j <= nextId st) (ids st) -> effect st r st' ->
  Forall (fun j => j <= nextId st') (ids st').
Proof.
  intros Hn Hids [Hi Hnext Hc | it Hc Hid -> | l1 x l2 Hc Hl ->].
  - now rewrite Hi, Hnext.
  - destruct (increment_range (nextId st) Hn) as [[Hle _] _].
    unfold ids in *. simpl. rewrite map_app. simpl.
    apply Forall_app. split.
    + eapply Forall_impl; [|exact Hids]. simpl. intros; lia.
    + constructor; [lia|constructor].
  - unfold ids in *. simpl. rewrite Hl in Hids.
    rewrite map_app in *. simpl in *.
    apply Forall_app in Hids. destruct Hids as [H1 H2].
    inversion H2; subst. apply Forall_app; auto.
Qed.

Lemma reachable_ids_le (st : store) (issued : list Z) :
  reachable st issued -> Forall (fun j => j <= nextId st) (ids st).
Proof.
  induction 1 as [|st issued req Hr IH].
  - repeat constructor; simpl; lia.
  - pose proof (reachable_counter _ _ Hr) as Hn.
    apply (effect_ids_le st _ (fst (handle req st)));
      [lia | exact IH | apply handle_effect].
Qed.

Lemma effect_issued (st st' : store) (r : completion response) (issued : list Z) :
  incl (ids st) issued -> effect st r st' -> incl (ids st') (issue r issued).
Proof.
  intros Hincl [Hi Hn Hc | it Hc Hid -> | l1 x l2 Hc Hl ->];
    unfold issue; rewrite Hc.
  - now rewrite Hi.
  - unfold ids in *. simpl. rewrite map_app. simpl.
    intros j Hj. apply in_app_iff in Hj. simpl in *.
    destruct Hj as [Hj | [Hj | []]]; auto.
  - unfold ids in *. simpl. rewrite Hl in Hincl.
    rewrite map_app in *. simpl in *.
    intros j Hj. apply Hincl. rewrite in_app_iff in *. simpl. tauto.
Qed.

Lemma reachable_ids_issued (st : store) (issued : list Z) :
  reachable st issued -> incl (ids st) issued.
Proof.
  induction 1 as [|st issued req _ IH].
  - unfold ids; simpl. apply incl_refl.
  - eapply effect_issued; [eassumption | apply handle_effect].
Qed.

Lemma created_post_items (req_body : props) (st : store) (it : item) :
  created (fst (post_items req_body st)) = Some it ->
  id it = nextId st
  /\ snd (post_items req_body st)
     = {| nextId := increment (nextId st); items := items st ++ [it] |}.
Proof.
  unfold post_items.
  destruct (invalid_name _); [discriminate|].
  destruct (ToNumber _) as [n|e]; [|discriminate].
  destruct (invalid_price n); [discriminate|].
  simpl. intros [= <-]. split; reflexivity.
Qed.

(** At [2^53] a Create that succeeds issues [2^53] and leaves the counter
    there, so that the next one would issue [2^53] again. *)
Lemma create_at_top (req_body : props) (st : store) (it : item) :
  nextId st = 2 ^ 53 ->
  created (fst (post_items req_body st)) = Some it ->
  id it = 2 ^ 53 /\ nextId (snd (post_items req_body st)) = 2 ^ 53.
Proof.
  intros Hn Hc. apply created_post_items in Hc. destruct Hc as [Hid ->].
  simpl. rewrite Hid, Hn. split; [reflexivity | apply increment_top].
Qed.

(** C2.  In every store reachable from the seed store (items with ids 1 and
    2, counter at 3) by any sequence of requests, with the counter still
    below [2^53], the ids in the collection are pairwise distinct and are
    among the ids issued so far, and a successful Create returns an id
    strictly greater than every id issued before it: no id is issued twice,
    whatever was deleted in between.  The bound is that of the counter, a
    binary64 Number that [nextId++] no longer moves at [2^53]. *)
Theorem ids_unique_and_increasing (st : store) (issued : list Z) :
  reachable st issued ->
  nextId st < 2 ^ 53 ->
  NoDup (ids st)
  /\ incl (ids st) issued
  /\ forall req_body it,
       created (fst (handle (POST_items req_body) st)) = Some it ->
       Forall (fun j => j < id it) issued.
Proof.
  intros Hr Hb. pose proof (reachable_inv _ _ Hr Hb) as (Hnd & _ & Hiss).
  repeat split; [assumption | now apply reachable_ids_issued |].
  simpl. intros req_body it Hc.
  apply created_post_items in Hc. destruct Hc as [-> _]. assumption.
Qed.

(** Create, Delete of the item created, Create again: the ids issued are 3
    and then 4. *)
Lemma ids_not_reused_after_delete :
  let st1 := snd (handle (POST_items marker) seed) in
  let st2 := snd (handle (DELETE_item (str "3")) st1) in
  option_map id (created (fst (handle (POST_items marker) seed))) = Some 3
  /\ ids st2 = [1; 2]
  /\ option_map id (created (fst (handle (POST_items marker) st2))) = Some 4.
Proof. repeat split. Qed.

Lemma ids_unique_and_increasing_run :
  let st1 := snd (handle (POST_items marker) seed) in
  let st2 := snd (handle (DELETE_item (str "3")) st1) in
  reachable st2 [3; 1; 2]
  /\ nextId st2 < 2 ^ 53
  /\ NoDup (ids st2)
  /\ incl (ids st2) [3; 1; 2]
  /\ forall req_body it,
       created (fst (handle (POST_items req_body) st2)) = Some it ->
       Forall (fun j => j < id it) [3; 1; 2].
Proof.
  intros st1 st2.
  assert (Hr : reachable st2 [3; 1; 2]).
  { exact (reach_step _ _ (DELETE_item (str "3"))
             (reach_step _ _ (POST_items marker) reach_seed)). }
  assert (Hb : nextId st2 < 2 ^ 53) by reflexivity.
  split; [exact Hr|]. split; [exact Hb|].
  exact (ids_unique_and_increasing st2 [3; 1; 2] Hr Hb).
Defined.

(** *** The validation rule *)

Lemma name_ok_valid (v : value) (s' : jsstring) :
  name_ok v s' -> invalid_name v = false /\ trimmed v = s' /\ is_undefined v = false.
Proof.
  intros (s & -> & Hs & ->). simpl. repeat split.
  destruct (trim s); [contradiction | reflexivity].
Qed.

Lemma name_bad_invalid (v : value) : name_bad v <-> invalid_name v = true.
Proof.
  unfold name_bad. split.
  - intros H. destruct v; simpl; try reflexivity.
    now rewrite (H s eq_refl).
  - intros H s ->. simpl in H. destruct (trim s); [reflexivity | discriminate].
Qed.

Lemma price_ok_valid (v : value) (n : number) :
  price_ok v n -> ToNumber v = Normal n /\ invalid_price n = false.
Proof.
  intros (H & Hf & Hl). split; [assumption|].
  unfold invalid_price. now rewrite Hf, Hl.
Qed.

Lemma price_bad_invalid (v : value) :
  price_bad v <-> exists n, ToNumber v = Normal n /\ invalid_price n = true.
Proof.
  unfold price_bad, invalid_price. split; intros (n & H & Hn); exists n;
    (split; [assumption|]).
  - destruct Hn as [-> | ->]; [reflexivity | apply orb_true_r].
  - apply orb_true_iff in Hn. destruct Hn as [Hn | Hn]; [left | now right].
    now apply negb_true_iff in Hn.
Qed.

Lemma price_valid_present (v : value) (n : number) :
  ToNumber v = Normal n -> invalid_price n = false -> is_undefined v = false.
Proof.
  destruct v; try reflexivity. simpl. intros [= <-]. discriminate.
Qed.


(** *** Create *)

(** The outcomes of Create whenever [Number(price)] returns: 400 naming
    [name], else 400 naming [price], else the item appended under the next
    id and returned with 201 and its [Location]. *)
Lemma create_cases (req_body : props) (st : store) :
  let name0 := get_prop (str "name") req_body in
  let price0 := get_prop (str "price") req_body in
  (name_bad name0 ->
   post_items req_body st
   = (Normal (bad_request "name is required (string)"), st))
  /\ (forall s', name_ok name0 s' -> price_bad price0 ->
      post_items req_body st
      = (Normal (bad_request "price must be a non-negative number"), st))
  /\ (forall s' n, name_ok name0 s' -> price_ok price0 n ->
      let it := {| id := nextId st; name := s'; price := n |} in
      post_items req_body st
      = (Normal (created_response it),
         {| nextId := increment (nextId st); items := items st ++ [it] |}))
  /\ (forall s' e, name_ok name0 s' -> ToNumber price0 = Throw e ->
      post_items req_body st = (Throw e, st)).
Proof.
  intros name0 price0. unfold post_items. fold name0 price0.
  repeat split.
  - intros H. apply name_bad_invalid in H. now rewrite H.
  - intros s' Hn Hp. apply name_ok_valid in Hn. destruct Hn as (-> & _).
    apply price_bad_invalid in Hp. destruct Hp as (n & -> & ->). reflexivity.
  - intros s' n Hn Hp. apply name_ok_valid in Hn. destruct Hn as (-> & -> & _).
    apply price_ok_valid in Hp. destruct Hp as (-> & ->). reflexivity.
  - intros s' e Hn Hp. apply name_ok_valid in Hn. destruct Hn as (-> & _).
    now rewrite Hp.
Qed.

(** The boundary cases of Create on the seed store: a price of 0 is
    accepted, a price of -0.01 and a price that is no numeral are rejected
    with 400, a name of spaces is rejected with 400, and the name [  Pen  ]
    is stored as [Pen]; [{name: "Eraser", price: 1}] gives the item 3 under
    [Location: /items/3]. *)
Lemma create_boundaries :
  let body name0 price0 := [ (str "name", name0); (str "price", price0) ] in
  let price_400 := bad_request "price must be a non-negative number" in
  let name_400 := bad_request "name is required (string)" in
  post_items (body (VString (str "  Pen  ")) (VNumber pos_zero)) seed
  = (Normal (created_response {| id := 3; name := str "Pen"; price := pos_zero |}),
     {| nextId := 4;
        items := [ notebook; pen;
                   {| id := 3; name := str "Pen"; price := pos_zero |} ] |})
  /\ post_items (body (VString (str "Pen")) (VNumber (decimal "-0.01"))) seed
     = (Normal price_400, seed)
  /\ post_items (body (VString (str "Pen")) (VString (str "abc"))) seed
     = (Normal price_400, seed)
  /\ post_items (body (VString (str "   ")) (VNumber one)) seed
     = (Normal name_400, seed)
  /\ fst (post_items (body (VString (str "Eraser")) (VNumber one)) seed)
     = Normal {| status := 201;
                 headers := [ ("X-Demo", "items-create");
                              ("Location", "/items/3") ];
                 content := JsonItem {| id := 3; name := str "Eraser";
                                        price := one |} |}.
Proof. repeat split. Qed.

Lemma unconvertible_price_invalid :
  name_ok (get_prop (str "name") unconvertible_price) (str "Pencil")
  /\ get_prop (str "price") unconvertible_price <> VUndefined
  /\ ToNumber (get_prop (str "price") unconvertible_price) = Throw TypeError
  /\ forall n, ~ price_ok (get_prop (str "price") unconvertible_price) n.
Proof.
  repeat split; try discriminate.
  - exists (str "Pencil"). repeat split. discriminate.
  - intros n (H & _). discriminate H.
Qed.

(** C1.  Create on the body [{name: "Pencil", price: {toString: null}}]: the
    name is valid and the price, an object with a [toString] property of its
    own, does not coerce to a finite Number [>= 0]; yet the handler neither
    answers 400 nor creates an item: [Number(price)] throws a [TypeError] out
    of the handler, and the store is left as it was. *)
Theorem create_unconvertible_price_throws :
  name_ok (get_prop (str "name") unconvertible_price) (str "Pencil")
  /\ (forall n, ~ price_ok (get_prop (str "price") unconvertible_price) n)
  /\ post_items unconvertible_price seed = (Throw TypeError, seed).
Proof.
  destruct unconvertible_price_invalid as (Hn & _ & _ & Hp).
  repeat split; assumption.
Qed.

(** *** Replace and PartialUpdate: the item [findItem] returns *)

Lemma findItem_at (id0 : number) (st : store) (x : item) :
  findItem id0 st = Some x -> exists l1 l2, at_item id0 st l1 x l2.
Proof.
  intros H. destruct (find_split _ _ _ H) as (l1 & l2 & Hl & Hx & Hl1).
  exists l1, l2. repeat split; assumption.
Qed.

Lemma at_item_find (id0 : number) (st : store) l1 x l2 :
  at_item id0 st l1 x l2 -> findItem id0 st = Some x.
Proof.
  intros (Hl & Hl1 & Hx). unfold findItem. rewrite Hl.
  now apply find_first.
Qed.

Lemma at_item_same (id0 : number) (st : store) l1 x l2 :
  at_item id0 st l1 x l2 -> with_item st l1 x l2 = st.
Proof.
  intros (Hl & _). destruct st as [n l]. unfold with_item. simpl in *.
  now rewrite Hl.
Qed.

Lemma assign_at (id0 : number) (f : item -> item) (st : store) l1 x l2 :
  (forall y, id (f y) = id y) ->
  at_item id0 st l1 x l2 ->
  assign id0 f st = with_item st l1 (f x) l2
  /\ at_item id0 (with_item st l1 (f x) l2) l1 (f x) l2.
Proof.
  intros Hf (Hl & Hl1 & Hx). split.
  - unfold assign, with_item. rewrite Hl.
    now rewrite update_first_split.
  - repeat split; [assumption|].
    unfold has_id in *. now rewrite Hf.
Qed.

Lemma mutate_at (id0 : number) (f : item -> item) (st : store) l1 x l2 :
  (forall y, id (f y) = id y) ->
  at_item id0 st l1 x l2 ->
  mutate id0 f (x, st) = (f x, with_item st l1 (f x) l2).
Proof.
  intros Hf H. unfold mutate. simpl.
  now destruct (assign_at id0 f st l1 x l2 Hf H) as [-> _].
Qed.

(** Replace, once the item is found. *)
Lemma put_item_at (param : jsstring) (req_body : props) (st : store) l1 x l2 :
  let id0 := StringToNumber param in
  let name0 := get_prop (str "name") req_body in
  let price0 := get_prop (str "price") req_body in
  at_item id0 st l1 x l2 ->
  put_item param req_body st
  = if invalid_name name0 then
      (Normal (bad_request "name is required (string)"), st)
    else
      match ToNumber price0 with
      | Throw e => (Throw e, st)
      | Normal n =>
          if invalid_price n then
            (Normal (bad_request "price must be a non-negative number"), st)
          else
            let x' := {| id := id x; name := trimmed name0; price := n |} in
            (Normal (ok "items-put" x'), with_item st l1 x' l2)
      end.
Proof.
  intros id0 name0 price0 H. unfold put_item. fold id0 name0 price0.
  rewrite (at_item_find _ _ _ _ _ H).
  destruct (invalid_name name0); [reflexivity|].
  destruct (ToNumber price0) as [n|e]; [|reflexivity].
  destruct (invalid_price n); [reflexivity|].
  rewrite (mutate_at id0 _ st l1 x l2 (set_name_id _) H).
  destruct (assign_at id0 (set_name (trimmed name0)) st l1 x l2
              (set_name_id _) H) as [_ H1].
  rewrite (mutate_at id0 _ _ l1 _ l2 (set_price_id _) H1).
  reflexivity.
Qed.

(** PartialUpdate, once the item is found. *)
Lemma patch_item_at (param : jsstring) (req_body : props) (st : store) l1 x l2 :
  let id0 := StringToNumber param in
  let name0 := get_prop (str "name") req_body in
  let price0 := get_prop (str "price") req_body in
  at_item id0 st l1 x l2 ->
  patch_item param req_body st
  = if negb (is_undefined name0) && invalid_name name0 then
      (Normal (bad_request "name must be a non-empty string"), st)
    else
      let x1 := if is_undefined name0 then x
                else set_name (trimmed name0) x in
      if is_undefined price0 then
        (Normal (ok "items-patch" x1), with_item st l1 x1 l2)
      else
        match ToNumber price0 with
        | Throw e => (Throw e, with_item st l1 x1 l2)
        | Normal n =>
            if invalid_price n then
              (Normal (bad_request "price must be a non-negative number"),
               with_item st l1 x1 l2)
            else
              (Normal (ok "items-patch" (set_price n x1)),
               with_item st l1 (set_price n x1) l2)
        end.
Proof.
  intros id0 name0 price0 H. unfold patch_item. fold id0 name0 price0.
  rewrite (at_item_find _ _ _ _ _ H).
  destruct (negb (is_undefined name0) && invalid_name name0); [reflexivity|].
  assert (H1 : (if is_undefined name0 then (x, st)
                else mutate id0 (set_name (trimmed name0)) (x, st))
               = (if is_undefined name0 then x else set_name (trimmed name0) x,
                  with_item st l1
                    (if is_undefined name0 then x
                     else set_name (trimmed name0) x) l2)
               /\ at_item id0
                    (with_item st l1
                       (if is_undefined name0 then x
                        else set_name (trimmed name0) x) l2)
                    l1 (if is_undefined name0 then x
                        else set_name (trimmed name0) x) l2).
  { destruct (is_undefined name0).
    - rewrite (at_item_same _ _ _ _ _ H). now split.
    - rewrite (mutate_at id0 _ st l1 x l2 (set_name_id _) H).
      split; [reflexivity|].
      now apply assign_at. }
  destruct H1 as [-> H1]. cbn [fst snd].
  destruct (is_undefined price0); [reflexivity|].
  destruct (ToNumber price0) as [n|e]; [|reflexivity].
  destruct (invalid_price n); [reflexivity|].
  now rewrite (mutate_at id0 _ _ l1 _ l2 (set_price_id _) H1).
Qed.

Lemma not_undefined (v : value) : v <> VUndefined -> is_undefined v = false.
Proof. destruct v; simpl; congruence. Qed.

Lemma findItem_none_put (param : jsstring) (req_body : props) (st : store) :
  findItem (StringToNumber param) st = None ->
  put_item param req_body st = (Normal (not_found (StringToNumber param)), st).
Proof. intros H. unfold put_item. now rewrite H. Qed.



(** C6.  Replace of the seed item 1 with the body
    [{name: "Pencil", price: {toString: null}}]: the item exists, the name is
    valid and the price does not coerce to a finite Number [>= 0]; yet the
    handler does not answer 400: [Number(price)] throws a [TypeError] out of
    the handler, and the store is left as it was. *)
Theorem replace_unconvertible_price_throws :
  findItem (StringToNumber (str "1")) seed = Some notebook
  /\ name_ok (get_prop (str "name") unconvertible_price) (str "Pencil")
  /\ (forall n, ~ price_ok (get_prop (str "price") unconvertible_price) n)
  /\ put_item (str "1") unconvertible_price seed = (Throw TypeError, seed).
Proof.
  destruct unconvertible_price_invalid as (Hn & _ & _ & Hp).
  repeat split; assumption.
Qed.

(** PartialUpdate when every field that is present is valid. *)
Lemma patch_item_valid (param : jsstring) (req_body : props) (st : store)
  l1 x l2 s' n :
  let name0 := get_prop (str "name") req_body in
  let price0 := get_prop (str "price") req_body in
  at_item (StringToNumber param) st l1 x l2 ->
  (name0 = VUndefined /\ s' = name x) \/ name_ok name0 s' ->
  (price0 = VUndefined /\ n = price x) \/ price_ok price0 n ->
  patch_item param req_body st
  = (Normal (ok "items-patch" {| id := id x; name := s'; price := n |}),
     with_item st l1 {| id := id x; name := s'; price := n |} l2).
Proof.
  intros name0 price0 Hat Hname Hprice.
  rewrite (patch_item_at param req_body st l1 x l2 Hat).
  cbv zeta. fold name0 price0.
  assert (Hn : negb (is_undefined name0) && invalid_name name0 = false
               /\ (if is_undefined name0 then x
                   else set_name (trimmed name0) x)
                  = {| id := id x; name := s'; price := price x |}).
  { destruct Hname as [[-> ->] | Hok].
    - simpl. split; [reflexivity | now destruct x].
    - apply name_ok_valid in Hok. destruct Hok as (Hi & Ht & Hu).
      rewrite Hi, Ht, Hu. split; reflexivity. }
  destruct Hn as [-> ->].
  destruct Hprice as [[-> ->] | Hok].
  - reflexivity.
  - apply price_ok_valid in Hok. destruct Hok as (Hp & Hi).
    rewrite (price_valid_present _ _ Hp Hi).
    now rewrite Hp, Hi.
Qed.

Lemma findItem_none_patch (param : jsstring) (req_body : props) (st : store) :
  findItem (StringToNumber param) st = None ->
  patch_item param req_body st = (Normal (not_found (StringToNumber param)), st).
Proof. intros H. unfold patch_item. now rewrite H. Qed.



(** PartialUpdate is not atomic.  On an existing item, a body holding a
    [name] that is a string not empty after trimming and a [price] that
    coerces to a Number that is not finite or is negative is answered with
    400, and the store it leaves has that item under the trimmed new name:
    the item is found there with its [id] and [price] as before and its
    [name] changed. *)
Lemma patch_not_atomic (param : jsstring) (req_body : props) (st : store)
  (l1 l2 : list item) (x : item) (s' : jsstring) :
  let id0 := StringToNumber param in
  let name0 := get_prop (str "name") req_body in
  let price0 := get_prop (str "price") req_body in
  at_item id0 st l1 x l2 ->
  name_ok name0 s' ->
  price0 <> VUndefined -> price_bad price0 ->
  let x' := {| id := id x; name := s'; price := price x |} in
  patch_item param req_body st
  = (Normal (bad_request "price must be a non-negative number"),
     with_item st l1 x' l2)
  /\ status (bad_request "price must be a non-negative number") = 400
  /\ findItem id0 (with_item st l1 x' l2) = Some x'.
Proof.
  intros id0 name0 price0 Hat Hname Hpresent Hbad x'.
  rewrite (patch_item_at param req_body st l1 x l2 Hat).
  cbv zeta. fold id0 name0 price0.
  apply name_ok_valid in Hname. destruct Hname as (Hn & Ht & Hu).
  apply price_bad_invalid in Hbad. destruct Hbad as (n & Hp & Hi).
  rewrite Hn, Hu, Ht, (not_undefined _ Hpresent), Hp, Hi. simpl.
  repeat split.
  apply (at_item_find id0 _ l1 x' l2).
  destruct Hat as (_ & Hl1 & Hx). repeat split; assumption.
Qed.

Lemma patch_not_atomic_seed :
  let x' := {| id := 1; name := str "Pencil"; price := decimal "4.5" |} in
  let rest := [ {| id := 2; name := str "Pen"; price := decimal "1.25" |} ] in
  patch_item (str "1") negative_price seed
  = (Normal (bad_request "price must be a non-negative number"),
     with_item seed [] x' rest)
  /\ status (bad_request "price must be a non-negative number") = 400
  /\ findItem (decimal "1") (with_item seed [] x' rest) = Some x'.
Proof.
  apply (patch_not_atomic (str "1") negative_price seed []
           [ {| id := 2; name := str "Pen"; price := decimal "1.25" |} ]
           {| id := 1; name := str "Notebook"; price := decimal "4.5" |}
           (str "Pencil")).
  - repeat split. constructor.
  - exists (str "Pencil"). repeat split. discriminate.
  - discriminate.
  - exists (decimal "-1"). split; [reflexivity | right; reflexivity].
Defined.

(** C4.  PartialUpdate of the seed item 1 with the body
    [{name: "Pencil", price: {toString: null}}]: the item exists, the name is
    valid and the price is present and does not coerce to a finite Number
    [>= 0]; the item's name is changed to [Pencil], yet the handler does not
    answer 400: [Number(price)] throws a [TypeError] out of the handler. *)
Theorem patch_unconvertible_price_throws :
  findItem (StringToNumber (str "1")) seed = Some notebook
  /\ name_ok (get_prop (str "name") unconvertible_price) (str "Pencil")
  /\ get_prop (str "price") unconvertible_price <> VUndefined
  /\ (forall n, ~ price_ok (get_prop (str "price") unconvertible_price) n)
  /\ patch_item (str "1") unconvertible_price seed
     = (Throw TypeError,
        {| nextId := 3;
           items := [ {| id := 1; name := str "Pencil";
                         price := decimal "4.5" |}; pen ] |}).
Proof.
  destruct unconvertible_price_invalid as (Hn & Hu & _ & Hp).
  repeat split; assumption.
Qed.

(** C9.  A Replace or a PartialUpdate that succeeds touches one item only:
    the store it leaves is the old one with the targeted item, at its old
    place, replaced by the item returned in the body, which has the same
    [id]; the counter, the number of items, their ids in order, and every
    item at another position are as before. *)
Theorem update_frame (param : jsstring) (req_body : props) (st st' : store)
  (resp : response) :
  put_item param req_body st = (Normal resp, st')
  \/ patch_item param req_body st = (Normal resp, st') ->
  status resp = 200 ->
  exists l1 x l2 x',
    at_item (StringToNumber param) st l1 x l2
    /\ st' = with_item st l1 x' l2
    /\ content resp = JsonItem x'
    /\ id x' = id x
    /\ nextId st' = nextId st
    /\ List.length (items st') = List.length (items st)
    /\ ids st' = ids st
    /\ forall i, i <> List.length l1 ->
         nth_error (items st') i = nth_error (items st) i.
Proof.
  intros H Hs.
  assert (Hcore : exists l1 x l2 x',
             at_item (StringToNumber param) st l1 x l2
             /\ st' = with_item st l1 x' l2
             /\ content resp = JsonItem x' /\ id x' = id x).
  { destruct (findItem (StringToNumber param) st) as [x|] eqn:Hx.
    - destruct (findItem_at _ _ _ Hx) as (l1 & l2 & Hat).
      exists l1, x, l2.
      destruct H as [H | H].
      + rewrite (put_item_at param req_body st l1 x l2 Hat) in H.
        cbv zeta in H.
        destruct (invalid_name _);
          [injection H as <- <-; discriminate|].
        destruct (ToNumber _) as [n|e]; [|discriminate].
        destruct (invalid_price n);
          [injection H as <- <-; discriminate|].
        injection H as <- <-. eexists. split; [exact Hat|]. repeat split.
      + rewrite (patch_item_at param req_body st l1 x l2 Hat) in H.
        cbv zeta in H.
        destruct (negb _ && _);
          [injection H as <- <-; discriminate|].
        destruct (is_undefined (get_prop (str "price") req_body)).
        * injection H as <- <-. eexists. split; [exact Hat|]. repeat split.
          now destruct (is_undefined _).
        * destruct (ToNumber _) as [n|e]; [|discriminate].
          destruct (invalid_price n);
            [injection H as <- <-; discriminate|].
          injection H as <- <-. eexists. split; [exact Hat|]. repeat split.
          now destruct (is_undefined _).
    - destruct H as [H | H];
        [rewrite (findItem_none_put _ _ _ Hx) in H
        |rewrite (findItem_none_patch _ _ _ Hx) in H];
        injection H as <- <-; discriminate. }
  destruct Hcore as (l1 & x & l2 & x' & Hat & -> & Hc & Hid).
  exists l1, x, l2, x'. repeat split; try assumption; try apply Hat.
  - destruct Hat as (Hl & _). simpl. rewrite Hl, !length_app. reflexivity.
  - destruct Hat as (Hl & _). unfold ids. simpl.
    rewrite Hl, !map_app. simpl. now rewrite Hid.
  - intros i Hi. destruct Hat as (Hl & _). simpl. rewrite Hl.
    destruct (Nat.lt_ge_cases i (List.length l1)) as [Hlt | Hge].
    + now rewrite !nth_error_app1.
    + rewrite !nth_error_app2 by assumption.
      destruct (i - List.length l1)%nat eqn:E; [lia | reflexivity].
Qed.

Lemma update_frame_seed :
  exists l1 x l2 x',
    at_item (decimal "1") seed l1 x l2
    /\ snd (put_item (str "1") pencil seed) = with_item seed l1 x' l2
    /\ JsonItem {| id := 1; name := str "Pencil"; price := decimal "2" |}
       = JsonItem x'
    /\ id x' = id x
    /\ nextId (snd (put_item (str "1") pencil seed)) = 3
    /\ List.length (items (snd (put_item (str "1") pencil seed))) = 2%nat
    /\ ids (snd (put_item (str "1") pencil seed)) = [1; 2]
    /\ forall i, i <> List.length l1 ->
         nth_error (items (snd (put_item (str "1") pencil seed))) i
         = nth_error (items seed) i.
Proof.
  apply (update_frame (str "1") pencil seed
           (snd (put_item (str "1") pencil seed))
           (ok "items-put"
               {| id := 1; name := str "Pencil"; price := decimal "2" |})).
  - left. reflexivity.
  - reflexivity.
Defined.

(** *** The decimal numeral of an id *)

Lemma of_uint_acc_digits (d : Decimal.uint) (acc : positive) :
  Z.pos (Pos.of_uint_acc d acc)
  = fold_left (fun a k => a * 10 + k) (udigits d) (Z.pos acc).
Proof.
  revert acc.
  induction d; intros acc; cbn [Pos.of_uint_acc udigits fold_left];
    [reflexivity|..]; rewrite IHd; f_equal; lia.
Qed.

Lemma of_uint_digits (d : Decimal.uint) :
  Z.of_N (Pos.of_uint d) = digits_value 10 (udigits d).
Proof.
  unfold digits_value.
  induction d; cbn [Pos.of_uint udigits fold_left Z.of_N];
    [reflexivity | assumption |..]; apply of_uint_acc_digits.
Qed.

Lemma str_cons (c : ascii) (s : string) :
  str (String c s) = N_of_ascii c :: str s.
Proof. reflexivity. Qed.

Lemma span_digits_numeral (d : Decimal.uint) :
  span_digits 10 (str (NilEmpty.string_of_uint d)) = (udigits d, []).
Proof.
  induction d; [reflexivity|..];
    cbn [NilEmpty.string_of_uint udigits]; rewrite str_cons;
    cbn [span_digits]; rewrite IHd; reflexivity.
Qed.

(** A numeral holds no white space and starts with a digit. *)
Lemma numeral_chars (d : Decimal.uint) :
  Forall (fun c => digit_of 10 c <> None) (str (NilEmpty.string_of_uint d)).
Proof.
  induction d; [constructor|..];
    cbn [NilEmpty.string_of_uint]; rewrite str_cons;
    (constructor; [discriminate | assumption]).
Qed.

Lemma digit_bounds (c : code_unit) :
  digit_of 10 c <> None -> (48 <= Z.of_N c <= 57).
Proof.
  unfold digit_of.
  destruct ((48 <=? Z.of_N c) && (Z.of_N c <=? 57)) eqn:E.
  - intros _. apply andb_true_iff in E. lia.
  - destruct ((97 <=? Z.of_N c) && (Z.of_N c <=? 102)) eqn:E1.
    + apply andb_true_iff in E1.
      destruct (Z.of_N c - 87 <? 10) eqn:E2; [lia | congruence].
    + destruct ((65 <=? Z.of_N c) && (Z.of_N c <=? 70)) eqn:E2.
      * apply andb_true_iff in E2.
        destruct (Z.of_N c - 55 <? 10) eqn:E3; [lia | congruence].
      * rewrite Z.ltb_irrefl. congruence.
Qed.

Lemma digit_not_space (c : code_unit) :
  digit_of 10 c <> None -> isWhiteSpace c = false.
Proof.
  intros H. apply digit_bounds in H. unfold isWhiteSpace.
  repeat (apply orb_false_iff; split); try (apply Z.eqb_neq; lia);
    apply andb_false_iff; [right | left]; apply Z.leb_gt; lia.
Qed.

Lemma trimStart_digit (c : code_unit) (s : jsstring) :
  digit_of 10 c <> None -> trimStart (c :: s) = c :: s.
Proof. intros H. simpl. now rewrite (digit_not_space c H). Qed.

Lemma trim_digits (s : jsstring) :
  Forall (fun c => digit_of 10 c <> None) s -> trim s = s.
Proof.
  intros H. unfold trim, trimEnd.
  assert (Hs : trimStart s = s).
  { destruct H; [reflexivity | now apply trimStart_digit]. }
  rewrite Hs.
  assert (Hr : trimStart (rev s) = rev s).
  { apply Forall_rev in H. destruct H; [reflexivity | now apply trimStart_digit]. }
  rewrite Hr. apply rev_involutive.
Qed.

Lemma is_char_digit (a : ascii) (c : code_unit) :
  digit_of 10 c <> None ->
  (Z.of_N (N_of_ascii a) < 48 \/ 57 < Z.of_N (N_of_ascii a)) ->
  is_char a c = false.
Proof.
  intros H Ha. apply digit_bounds in H.
  unfold is_char, code_unit_eqb. apply N.eqb_neq. intros ->. lia.
Qed.

Ltac not_digit := apply is_char_digit; [assumption | simpl; lia].

Lemma radix_of_digit (c : code_unit) :
  digit_of 10 c <> None -> radix_of c = None.
Proof.
  intros H. unfold radix_of.
  replace (is_char "x" c) with false by (symmetry; not_digit).
  replace (is_char "X" c) with false by (symmetry; not_digit).
  replace (is_char "o" c) with false by (symmetry; not_digit).
  replace (is_char "O" c) with false by (symmetry; not_digit).
  replace (is_char "b" c) with false by (symmetry; not_digit).
  replace (is_char "B" c) with false by (symmetry; not_digit).
  reflexivity.
Qed.

Lemma parse_signed_digits (s : jsstring) (ds : list Z) :
  Forall (fun c => digit_of 10 c <> None) s -> s <> [] ->
  span_digits 10 s = (ds, []) ->
  parse_signed s = round_decimal false (digits_value 10 ds) 0.
Proof.
  intros H Hne Hspan. destruct H as [|c r Hc Hr]; [contradiction|].
  unfold parse_signed.
  replace (is_char "+" c) with false by (symmetry; not_digit).
  replace (is_char "-" c) with false by (symmetry; not_digit).
  unfold parse_unsigned.
  assert (Hinf : jsstring_eqb (c :: r) (str "Infinity") = false).
  { change (str "Infinity") with (N_of_ascii "I" :: str "nfinity").
    cbn [jsstring_eqb]. apply andb_false_iff. left.
    apply N.eqb_neq. intros ->. apply digit_bounds in Hc. simpl in Hc. lia. }
  rewrite Hinf, Hspan. cbn [is_nil].
  assert (Hds : is_nil ds = false).
  { cbn [span_digits] in Hspan.
    destruct (digit_of 10 c); [|contradiction].
    destruct (span_digits 10 r). now injection Hspan as <- _. }
  rewrite Hds. cbn [andb parse_exponent List.length Z.of_nat].
  now rewrite app_nil_r.
Qed.

Lemma StringToNumber_digits (s : jsstring) (ds : list Z) :
  Forall (fun c => digit_of 10 c <> None) s -> s <> [] ->
  span_digits 10 s = (ds, []) ->
  StringToNumber s = round_decimal false (digits_value 10 ds) 0.
Proof.
  intros H Hne Hspan. unfold StringToNumber. rewrite (trim_digits s H).
  destruct s as [|z [|c r]]; [contradiction| |].
  - now apply parse_signed_digits.
  - inversion H as [|? ? _ Hr]; subst. inversion Hr as [|? ? Hc _]; subst.
    rewrite (radix_of_digit c Hc).
    destruct (is_char "0" z); now apply parse_signed_digits.
Qed.

(** *** The numeral reads back *)

Lemma show_int_pos (p : positive) :
  show_int (Z.pos p) = NilEmpty.string_of_uint (Pos.to_uint p).
Proof.
  unfold show_int. cbn [Z.to_int NilZero.string_of_int].
  pose proof (Unsigned.to_uint_nonnil p) as H.
  unfold NilZero.string_of_uint. now destruct (Pos.to_uint p).
Qed.

(** The decimal numeral of an id below [2^53] reads back as that id: the URL
    under [Location] names the item. *)
Lemma numeral_reads_back (z : Z) :
  0 <= z < 2 ^ 53 -> eq_int (StringToNumber (str (show_int z))) z = true.
Proof.
  intros [Hlo Hhi]. destruct z as [|p|p]; [reflexivity| |lia].
  rewrite show_int_pos.
  rewrite (StringToNumber_digits _ (udigits (Pos.to_uint p))).
  - rewrite <- of_uint_digits, Unsigned.of_to.
    cbn [Z.of_N round_decimal Z.leb Z.compare].
    replace (Z.pos p * 10 ^ 0) with (Z.pos p) by lia. cbn [Z.to_pos].
    unfold eq_int. rewrite (int_value_binary_round p Hhi).
    apply Z.eqb_refl.
  - apply numeral_chars.
  - pose proof (Unsigned.to_uint_nonnil p) as H.
    destruct (Pos.to_uint p); [contradiction|..]; discriminate.
  - apply span_digits_numeral.
Qed.

(** *** Lookup by id *)

Lemma eq_int_inj (n : number) (a b : Z) :
  eq_int n a = true -> eq_int n b = true -> a = b.
Proof.
  unfold eq_int. destruct (int_value n); [|discriminate].
  intros Ha Hb. apply Z.eqb_eq in Ha, Hb. congruence.
Qed.

Lemma has_id_false (id0 : number) (x y : item) :
  has_id id0 x = true -> id y <> id x -> has_id id0 y = false.
Proof.
  intros Hx Hne. destruct (has_id id0 y) eqn:Hy; [|reflexivity].
  elim Hne. eapply eq_int_inj; eassumption.
Qed.

(** With distinct ids, taking the first item with an id out of the array
    leaves none with that id. *)
Lemma gone_after_removal (id0 : number) (st : store) l1 x l2 :
  NoDup (ids st) -> at_item id0 st l1 x l2 ->
  findItem id0 {| nextId := nextId st; items := l1 ++ l2 |} = None.
Proof.
  intros Hnd (Hl & Hl1 & Hx). unfold findItem. simpl.
  apply find_none_iff, Forall_app. split; [assumption|].
  unfold ids in Hnd. rewrite Hl, map_app in Hnd. simpl in Hnd.
  apply NoDup_remove_2 in Hnd.
  apply Forall_forall. intros y Hy.
  apply (has_id_false id0 x y Hx).
  intros E. apply Hnd. rewrite in_app_iff. right.
  rewrite <- E. now apply in_map.
Qed.

Lemma get_item_absent (param : jsstring) (st : store) :
  findItem (StringToNumber param) st = None ->
  get_item param st = (Normal (not_found (StringToNumber param)), st).
Proof. intros H. unfold get_item. now rewrite H. Qed.

Lemma delete_item_absent (param : jsstring) (st : store) :
  findItem (StringToNumber param) st = None ->
  delete_item param st = (Normal (not_found (StringToNumber param)), st).
Proof.
  intros H. unfold delete_item.
  now rewrite (findIndex_none _ _ H).
Qed.

Lemma delete_item_at (param : jsstring) (st : store) l1 x l2 :
  at_item (StringToNumber param) st l1 x l2 ->
  delete_item param st
  = (Normal {| status := 204; headers := [("X-Demo", "items-delete")];
               content := Empty |},
     {| nextId := nextId st; items := l1 ++ l2 |}).
Proof.
  intros (Hl & Hl1 & Hx). unfold delete_item. rewrite Hl.
  rewrite (findIndex_split _ _ _ _ Hl1 Hx), splice1_split.
  destruct (Z.of_nat (List.length l1) =? -1) eqn:E; [|reflexivity].
  apply Z.eqb_eq in E. lia.
Qed.

(** C7.  In a store of the process, Delete of an id that an item has takes
    that item, and only it, out of the collection and answers 204 with no
    body.  From then on the item is gone (no item of the id is left, the
    counter being below [2^53]), and in any store without an item of that id
    both Get and Delete answer 404 with the one body
    [{error: "not_found", message: `No item with id ${id}`}] and leave the
    store as it is, however often they are repeated.  On the seed store,
    [DELETE /items/2] answers 204 and [GET /items/2] after it answers 404
    with the message [No item with id 2]. *)
Theorem delete_then_not_found (st : store) (issued : list Z)
  (param : jsstring) (x : item) :
  let id0 := StringToNumber param in
  reachable st issued ->
  findItem id0 st = Some x ->
  (exists l1 l2,
     let st' := {| nextId := nextId st; items := l1 ++ l2 |} in
     at_item id0 st l1 x l2
     /\ delete_item param st
        = (Normal {| status := 204; headers := [("X-Demo", "items-delete")];
                     content := Empty |}, st')
     /\ (nextId st < 2 ^ 53 -> findItem id0 st' = None))
  /\ (forall st', findItem id0 st' = None ->
      get_item param st' = (Normal (not_found id0), st')
      /\ delete_item param st' = (Normal (not_found id0), st')
      /\ status (not_found id0) = 404
      /\ content (not_found id0) = JsonError "not_found" (NoItemWithId id0))
  /\ (let st' := snd (delete_item (str "2") seed) in
      fst (delete_item (str "2") seed)
      = Normal {| status := 204; headers := [("X-Demo", "items-delete")];
                  content := Empty |}
      /\ get_item (str "2") st'
         = (Normal {| status := 404; headers := [];
                      content := JsonError "not_found"
                                   (NoItemWithId (decimal "2")) |}, st')
      /\ render (NoItemWithId (decimal "2")) = Some "No item with id 2").
Proof.
  intros id0 Hr Hx. split; [|split].
  - destruct (findItem_at _ _ _ Hx) as (l1 & l2 & Hat).
    exists l1, l2. split; [assumption|]. split.
    + exact (delete_item_at param st l1 x l2 Hat).
    + intros Hb. apply (gone_after_removal id0 st l1 x l2); [|assumption].
      apply (reachable_inv _ _ Hr Hb).
  - intros st' Hnone. repeat split.
    + now apply get_item_absent.
    + now apply delete_item_absent.
  - repeat split.
Qed.

Lemma delete_then_not_found_seed :
  let pen := {| id := 2; name := str "Pen"; price := decimal "1.25" |} in
  reachable seed [1; 2]
  /\ findItem (decimal "2") seed = Some pen
  /\ exists l1 l2,
       let st' := {| nextId := 3; items := l1 ++ l2 |} in
       at_item (decimal "2") seed l1 pen l2
       /\ delete_item (str "2") seed
          = (Normal {| status := 204; headers := [("X-Demo", "items-delete")];
                       content := Empty |}, st')
       /\ (nextId seed < 2 ^ 53 -> findItem (decimal "2") st' = None).
Proof.
  intros pen. split; [exact reach_seed|]. split; [reflexivity|].
  exact (proj1 (delete_then_not_found seed [1; 2] (str "2") pen
                  reach_seed eq_refl)).
Defined.

(** C8.  In a store of the process, Create with a [name] that is a string not
    empty after trimming and a [price] that coerces to a finite Number [>= 0]
    answers 201 with a new item, and, the counter being below [2^53], Get
    with a parameter that reads as the id of that item then answers 200 with
    that very item, whose [name] is the trimmed input name and whose [price]
    is the coerced input price.  The decimal numeral of the id, the last
    segment of the URL given under [Location], is such a parameter. *)
Theorem create_then_get (st : store) (issued : list Z) (req_body : props)
  (s' : jsstring) (n : number) :
  reachable st issued ->
  name_ok (get_prop (str "name") req_body) s' ->
  price_ok (get_prop (str "price") req_body) n ->
  exists it st',
    post_items req_body st = (Normal (created_response it), st')
    /\ name it = s' /\ price it = n
    /\ (nextId st < 2 ^ 53 ->
        forall param,
        eq_int (StringToNumber param) (id it) = true ->
        get_item param st'
        = (Normal {| status := 200; headers := [("X-Demo", "items-get")];
                     content := JsonItem it |}, st'))
    /\ (nextId st < 2 ^ 53 ->
        get_item (str (show_int (id it))) st'
        = (Normal {| status := 200; headers := [("X-Demo", "items-get")];
                     content := JsonItem it |}, st')).
Proof.
  intros Hr Hn Hp.
  destruct (create_cases req_body st) as (_ & _ & Hc & _).
  specialize (Hc s' n Hn Hp). cbv zeta in Hc.
  assert (Hget : nextId st < 2 ^ 53 ->
             forall param,
             eq_int (StringToNumber param) (nextId st) = true ->
             get_item param
               {| nextId := increment (nextId st);
                  items := items st
                           ++ [{| id := nextId st; name := s'; price := n |}] |}
             = (Normal {| status := 200; headers := [("X-Demo", "items-get")];
                          content := JsonItem {| id := nextId st; name := s';
                                                 price := n |} |},
                {| nextId := increment (nextId st);
                   items := items st
                            ++ [{| id := nextId st; name := s';
                                   price := n |}] |})).
  { intros Hb param Hid.
    destruct (reachable_inv _ _ Hr Hb) as (_ & Hlt & Hiss).
    unfold get_item, findItem. simpl.
    rewrite find_first; [reflexivity| |exact Hid].
    unfold ids in Hlt. rewrite Forall_map in Hlt.
    eapply Forall_impl; [|exact Hlt].
    intros y Hy. simpl in Hy.
    apply (has_id_false _ {| id := nextId st; name := s'; price := n |} y Hid).
    simpl. lia. }
  eexists. eexists. split; [exact Hc|].
  repeat split; [exact Hget|].
  intros Hbound. apply (Hget Hbound). simpl. apply numeral_reads_back.
  pose proof (reachable_counter _ _ Hr). lia.
Qed.

Lemma create_then_get_seed :
  exists it st',
    post_items marker seed = (Normal (created_response it), st')
    /\ name it = str "Marker" /\ price it = two_point_75
    /\ (3 < 2 ^ 53 ->
        forall param,
        eq_int (StringToNumber param) (id it) = true ->
        get_item param st'
        = (Normal {| status := 200; headers := [("X-Demo", "items-get")];
                     content := JsonItem it |}, st'))
    /\ (3 < 2 ^ 53 ->
        get_item (str (show_int (id it))) st'
        = (Normal {| status := 200; headers := [("X-Demo", "items-get")];
                     content := JsonItem it |}, st')).
Proof.
  apply (create_then_get seed [1; 2] marker (str "Marker") two_point_75).
  - exact reach_seed.
  - exists (str "Marker"). repeat split. discriminate.
  - repeat split.
Defined.

(** *** Content negotiation at the root *)

(** C5.  Whatever the request accepts, the root handler answers 200 with the
    endpoint index in the first format, in the order plain text, JSON, XML,
    HTML, that the request accepts, and 406 when it accepts none of the
    four.  With [Accept: application/json] the answer is the 200 JSON index;
    with [Accept: application/x-foo] alone it is 406. *)
Theorem root_negotiation (accepts : string -> bool) :
  match find accepts priority_order with
  | Some type =>
      root accepts
      = {| status := 200; headers := []; content := index_in type |}
  | None => status (root accepts) = 406
  end
  /\ root (req_accepts accept_json)
     = {| status := 200; headers := [];
          content := JsonIndex "Express REST Demo" index_endpoints |}
  /\ status (root (req_accepts accept_x_foo)) = 406.
Proof.
  split; [|split; reflexivity].
  unfold root, priority_order. simpl.
  destruct (accepts "text/plain"); [reflexivity|].
  destruct (accepts "application/json"); [reflexivity|].
  destruct (accepts "application/xml"); [reflexivity|].
  destruct (accepts "text/html"); reflexivity.
Qed.

(** *** Coercion of the price *)


Lemma put_item_valid (param : jsstring) (req_body : props) (st : store)
  l1 x l2 s' n :
  at_item (StringToNumber param) st l1 x l2 ->
  name_ok (get_prop (str "name") req_body) s' ->
  price_ok (get_prop (str "price") req_body) n ->
  put_item param req_body st
  = (Normal (ok "items-put" {| id := id x; name := s'; price := n |}),
     with_item st l1 {| id := id x; name := s'; price := n |} l2).
Proof.
  intros Hat Hn Hp. rewrite (put_item_at param req_body st l1 x l2 Hat).
  cbv zeta.
  apply name_ok_valid in Hn. destruct Hn as (Hn & Ht & _).
  apply price_ok_valid in Hp. destruct Hp as (Hp & Hi).
  now rewrite Hn, Hp, Hi, Ht.
Qed.



(** ** Further properties of the handlers *)

(** *** Trimming *)

Lemma trimStart_head (s : jsstring) (c : code_unit) (r : jsstring) :
  trimStart s = c :: r -> isWhiteSpace c = false.
Proof.
  induction s as [|a s IH]; simpl; [discriminate|].
  destruct (isWhiteSpace a) eqn:Ha; [assumption|].
  now intros [= <- _].
Qed.

Lemma trimStart_fixed (c : code_unit) (r : jsstring) :
  isWhiteSpace c = false -> trimStart (c :: r) = c :: r.
Proof. intros H. simpl. now rewrite H. Qed.

(** Stripping the front of a string that ends in a character that is not
    white space leaves that end in place. *)
Lemma trimStart_snoc (a : jsstring) (c : code_unit) :
  isWhiteSpace c = false -> exists v, trimStart (a ++ [c]) = v ++ [c].
Proof.
  intros Hc. induction a as [|x a IH]; simpl.
  - rewrite Hc. now exists [].
  - destruct (isWhiteSpace x); [assumption|]. now exists (x :: a).
Qed.

(** What [trim] returns is empty, or starts and ends with characters that
    are not white space. *)
Lemma trim_ends (s : jsstring) :
  trim s = []
  \/ exists c r c' r',
       trim s = c :: r /\ isWhiteSpace c = false
       /\ rev (trim s) = c' :: r' /\ isWhiteSpace c' = false.
Proof.
  unfold trim, trimEnd.
  destruct (trimStart s) as [|c r] eqn:Hs; [now left|].
  pose proof (trimStart_head _ _ _ Hs) as Hc.
  right. cbn [rev].
  destruct (trimStart_snoc (rev r) c Hc) as [v Hv].
  pose proof Hv as Hhead. rewrite Hv.
  rewrite rev_involutive, rev_app_distr. cbn [rev app].
  destruct v as [|x v].
  - exists c, [], c, []. repeat split; assumption.
  - exists c, (rev (x :: v)), x, (v ++ [c]). repeat split; try assumption.
    eapply trimStart_head. exact Hhead.
Qed.

(** [trim] is idempotent. *)
Lemma trim_trim (s : jsstring) : trim (trim s) = trim s.
Proof.
  destruct (trim_ends s) as [-> | (c & r & c' & r' & Ht & Hc & Hr & Hc')];
    [reflexivity|].
  unfold trim at 1. unfold trimEnd.
  rewrite Ht at 1. rewrite (trimStart_fixed c r Hc), <- Ht, Hr.
  rewrite (trimStart_fixed c' r' Hc'), <- Hr. apply rev_involutive.
Qed.

(** *** The data model is kept *)

Lemma update_first_Forall (P : item -> Prop) (p : item -> bool)
  (f : item -> item) (l : list item) :
  (forall x, P x -> P (f x)) -> Forall P l -> Forall P (update_first p f l).
Proof.
  intros Hf. induction 1 as [|a l Ha Hl IH]; simpl; [constructor|].
  destruct (p a); constructor; auto.
Qed.

Lemma good_set_name (v : value) (x : item) :
  invalid_name v = false -> good_item x -> good_item (set_name (trimmed v) x).
Proof.
  intros Hv (Hid & _ & _ & Hp). destruct v; try discriminate.
  unfold good_item. cbn [set_name trimmed id name price invalid_name] in *.
  split; [assumption|]. split; [|split; [apply trim_trim | assumption]].
  intros E. now rewrite E in Hv.
Qed.

Lemma good_set_price (n : number) (x : item) :
  invalid_price n = false -> good_item x -> good_item (set_price n x).
Proof.
  intros Hn (Hid & Hne & Ht & _).
  apply orb_false_iff in Hn. destruct Hn as [Hf Hl].
  apply negb_false_iff in Hf. repeat split; assumption.
Qed.

Lemma assign_good (id0 : number) (f : item -> item) (st : store) :
  (forall x, good_item x -> good_item (f x)) ->
  Forall good_item (items st) -> Forall good_item (items (assign id0 f st)).
Proof. intros Hf H. simpl. now apply update_first_Forall. Qed.

Lemma Forall_take (P : item -> Prop) (n : nat) (l : list item) :
  Forall P l -> Forall P (firstn n l).
Proof.
  revert l. induction n as [|n IH]; intros l H; [constructor|].
  destruct H; simpl; constructor; auto.
Qed.

Lemma Forall_drop (P : item -> Prop) (n : nat) (l : list item) :
  Forall P l -> Forall P (skipn n l).
Proof.
  revert l. induction n as [|n IH]; intros l H; [assumption|].
  destruct H; simpl; auto.
Qed.

Lemma splice1_Forall (P : item -> Prop) (idx : Z) (l : list item) :
  Forall P l -> Forall P (splice1 idx l).
Proof.
  intros H. unfold splice1. apply Forall_app. split.
  - now apply Forall_take.
  - now apply Forall_drop.
Qed.

Lemma good_new (i : Z) (v : value) (n : number) :
  1 <= i -> invalid_name v = false -> invalid_price n = false ->
  good_item {| id := i; name := trimmed v; price := n |}.
Proof.
  intros Hi Hv Hn. destruct v; try discriminate.
  apply orb_false_iff in Hn. destruct Hn as [Hf Hl].
  apply negb_false_iff in Hf.
  unfold good_item. cbn [trimmed id name price invalid_name] in *.
  split; [assumption|]. split; [|split; [apply trim_trim | now split]].
  intros E. now rewrite E in Hv.
Qed.

Lemma handle_good (req : request) (st : store) :
  1 <= nextId st -> Forall good_item (items st) ->
  Forall good_item (items (snd (handle req st))).
Proof.
  intros Hn H. destruct req; simpl; try assumption.
  - unfold get_item. now destruct (findItem _ st).
  - unfold post_items.
    destruct (invalid_name _) eqn:Hv; [assumption|].
    destruct (ToNumber _) as [n|e]; [|assumption].
    destruct (invalid_price n) eqn:Hp; [assumption|].
    simpl. apply Forall_app. split; [assumption|].
    constructor; [|constructor]. now apply good_new.
  - unfold put_item.
    destruct (findItem _ st); [|assumption].
    destruct (invalid_name _) eqn:Hv; [assumption|].
    destruct (ToNumber _) as [n|e]; [|assumption].
    destruct (invalid_price n) eqn:Hp; [assumption|].
    unfold mutate. cbn [fst snd].
    apply assign_good; [intros; now apply good_set_price|].
    apply assign_good; [intros; now apply good_set_name|assumption].
  - unfold patch_item.
    destruct (findItem _ st) as [x|]; [|assumption].
    destruct (negb _ && _) eqn:Hc; [assumption|].
    assert (H1 : Forall good_item
                   (items (snd (if is_undefined (get_prop (str "name") req_body)
                                then (x, st)
                                else mutate (StringToNumber param)
                                       (set_name (trimmed (get_prop (str "name") req_body)))
                                       (x, st))))).
    { destruct (is_undefined _); [assumption|].
      simpl in Hc.
      unfold mutate. cbn [fst snd].
      apply assign_good; [intros; now apply good_set_name|assumption]. }
    destruct (is_undefined (get_prop (str "price") req_body)); [assumption|].
    destruct (ToNumber _) as [n|e]; [|assumption].
    destruct (invalid_price n) eqn:Hp; [assumption|].
    unfold mutate at 1. cbn [fst snd].
    apply assign_good; [intros; now apply good_set_price|assumption].
  - unfold delete_item.
    destruct (findIndex _ _ =? -1); [assumption|].
    simpl. now apply splice1_Forall.
Qed.

Lemma reachable_good (st : store) (issued : list Z) :
  reachable st issued -> Forall good_item (items st).
Proof.
  induction 1 as [|st issued req Hr IH].
  - repeat constructor; try discriminate.
  - apply handle_good; [|assumption].
    pose proof (reachable_counter _ _ Hr). lia.
Qed.

(** In every store of the process each item has a positive [id] that does
    not pass the counter, itself at most [2^53], a [name] that is not empty
    and carries no white space at either end, and a finite [price] that is
    not negative: also after a PartialUpdate that failed half way.  While the
    counter is below [2^53] every [id] is below the counter. *)
Theorem items_well_formed (st : store) (issued : list Z) :
  reachable st issued ->
  Forall (fun x => good_item x /\ id x <= nextId st <= 2 ^ 53) (items st)
  /\ (nextId st < 2 ^ 53 -> Forall (fun x => id x < nextId st) (items st)).
Proof.
  intros Hr. pose proof (reachable_good _ _ Hr) as Hg.
  pose proof (reachable_ids_le _ _ Hr) as Hle.
  pose proof (reachable_counter _ _ Hr) as Hn.
  unfold ids in Hle. rewrite Forall_map in Hle. split.
  - rewrite Forall_forall in *. intros x Hx.
    specialize (Hle x Hx). split; [auto | lia].
  - intros Hb. destruct (reachable_inv _ _ Hr Hb) as (_ & Hlt & _).
    unfold ids in Hlt. now rewrite Forall_map in Hlt.
Qed.

Lemma items_well_formed_run :
  let st1 := snd (handle (POST_items pencil) seed) in
  let st2 := snd (handle (PATCH_item (str "1") negative_price) st1) in
  reachable st2 [3; 1; 2]
  /\ Forall (fun x => good_item x /\ id x <= nextId st2 <= 2 ^ 53) (items st2)
  /\ (nextId st2 < 2 ^ 53 -> Forall (fun x => id x < nextId st2) (items st2)).
Proof.
  intros st1 st2.
  assert (Hr : reachable st2 [3; 1; 2]).
  { exact (reach_step _ _ (PATCH_item (str "1") negative_price)
             (reach_step _ _ (POST_items pencil) reach_seed)). }
  split; [exact Hr|].
  exact (items_well_formed st2 [3; 1; 2] Hr).
Defined.

(** *** Answers and the store *)

(** Create, Replace, Delete and the reading routes change the store only
    when they answer 2xx: after a 400, a 404, a 406 or an exception the store
    is the one the request found.  (PartialUpdate is the exception.) *)
Theorem failure_keeps_store (req : request) (st : store) :
  is_patch req = false ->
  succeeded (fst (handle req st)) = false ->
  snd (handle req st) = st.
Proof.
  intros Hp Hs. destruct req; try discriminate; try reflexivity; simpl in *.
  - unfold get_item. now destruct (findItem _ st).
  - unfold post_items in *.
    destruct (invalid_name _); [reflexivity|].
    destruct (ToNumber _) as [n|e]; [|reflexivity].
    destruct (invalid_price n); [reflexivity | discriminate].
  - unfold put_item in *.
    destruct (findItem _ st); [|reflexivity].
    destruct (invalid_name _); [reflexivity|].
    destruct (ToNumber _) as [n|e]; [|reflexivity].
    destruct (invalid_price n); [reflexivity | discriminate].
  - unfold delete_item in *.
    destruct (findIndex _ _ =? -1); [reflexivity | discriminate].
Qed.

Lemma failure_keeps_store_seed :
  is_patch (PUT_item (str "1") negative_price) = false
  /\ succeeded (fst (handle (PUT_item (str "1") negative_price) seed)) = false
  /\ snd (handle (PUT_item (str "1") negative_price) seed) = seed.
Proof.
  split; [reflexivity|]. split; [reflexivity|].
  apply (failure_keeps_store (PUT_item (str "1") negative_price) seed);
    reflexivity.
Defined.

Ltac classify :=
  first [ solve [left; repeat eexists]
        | right; classify
        | solve [repeat eexists] ].

(** On the eight routes of [handle], whatever the parameter, the body and
    the store, an answer has one of the statuses 200, 201, 204, 400, 404,
    406; a 400 carries [{error: "bad_request", message}] with a fixed text
    and a 404 carries [{error: "not_found", message}] with the id that was
    looked up.  (The last middleware and the handler written for HEAD, which
    answer 404 in other words, are not among these routes.) *)
Theorem status_policy (req : request) (st : store) (resp : response) :
  fst (handle req st) = Normal resp ->
  In (status resp) [200; 201; 204; 400; 404; 406]
  /\ (status resp = 400 ->
      exists msg, content resp = JsonError "bad_request" (Text msg))
  /\ (status resp = 404 ->
      exists id0, content resp = JsonError "not_found" (NoItemWithId id0)).
Proof.
  intros H.
  assert (Hcases :
    (exists demo b, resp = {| status := 200; headers := demo; content := b |})
    \/ (exists hs it,
          resp = {| status := 201; headers := hs; content := JsonItem it |})
    \/ (exists demo, resp = {| status := 204; headers := demo; content := Empty |})
    \/ (exists msg, resp = bad_request msg)
    \/ (exists id0, resp = not_found id0)
    \/ (exists b, resp = {| status := 406; headers := []; content := b |})).
  { destruct req; simpl in H.
    - injection H as <-. unfold root.
      repeat match goal with |- context [if ?b then _ else _] => destruct b end;
        classify.
    - injection H as <-. classify.
    - unfold get_item in H. destruct (findItem _ st);
        injection H as <-; classify.
    - unfold post_items in H.
      destruct (invalid_name _); [injection H as <-; classify|].
      destruct (ToNumber _) as [n|e]; [|discriminate].
      destruct (invalid_price n); injection H as <-; classify.
    - unfold put_item in H.
      destruct (findItem _ st); [|injection H as <-; classify].
      destruct (invalid_name _); [injection H as <-; classify|].
      destruct (ToNumber _) as [n|e]; [|discriminate].
      destruct (invalid_price n); injection H as <-; classify.
    - unfold patch_item in H.
      destruct (findItem _ st); [|injection H as <-; classify].
      destruct (negb _ && _); [injection H as <-; classify|].
      destruct (is_undefined (get_prop (str "price") req_body));
        [injection H as <-; classify|].
      destruct (ToNumber _) as [n|e]; [|discriminate].
      destruct (invalid_price n); injection H as <-; classify.
    - unfold delete_item in H.
      destruct (findIndex _ _ =? -1); injection H as <-; classify.
    - injection H as <-. classify. }
  destruct Hcases as [(d & b & ->) | [(hs & it & ->) | [(d & ->) | [(msg & ->)
    | [(id0 & ->) | (b & ->)]]]]]; simpl;
    (split; [tauto|]); split; intros E; try discriminate E; eauto.
Qed.

Lemma status_policy_seed :
  fst (handle (PUT_item (str "1") negative_price) seed)
  = Normal (bad_request "price must be a non-negative number")
  /\ In 400 [200; 201; 204; 400; 404; 406]
  /\ (400 = 400 ->
      exists msg,
        JsonError "bad_request" (Text "price must be a non-negative number")
        = JsonError "bad_request" (Text msg))
  /\ (400 = 404 ->
      exists id0,
        JsonError "bad_request" (Text "price must be a non-negative number")
        = JsonError "not_found" (NoItemWithId id0)).
Proof.
  split; [reflexivity|].
  exact (status_policy (PUT_item (str "1") negative_price) seed
           (bad_request "price must be a non-negative number") eq_refl).
Defined.

Lemma findIndex_some (p : item -> bool) (l : list item) (x : item) :
  find p l = Some x -> (findIndex p l =? -1) = false.
Proof.
  intros H. destruct (find_split p l x H) as (l1 & l2 & -> & Hx & Hl1).
  rewrite (findIndex_split p l1 l2 x Hl1 Hx). apply Z.eqb_neq. lia.
Qed.

(** The five handlers for [/items/:id] answer 404 for the same ids: each
    does exactly when no item of the store has the id the parameter reads
    as, whatever the body of the request. *)
Theorem routes_agree_on_absence (param : jsstring) (req_body : props)
  (st : store) :
  let gone := absent (StringToNumber param) st in
  is_404 (fst (get_item param st)) = gone
  /\ is_404 (fst (head_item param st)) = gone
  /\ is_404 (fst (put_item param req_body st)) = gone
  /\ is_404 (fst (patch_item param req_body st)) = gone
  /\ is_404 (fst (delete_item param st)) = gone.
Proof.
  unfold absent, get_item, head_item, put_item, patch_item, delete_item.
  destruct (findItem (StringToNumber param) st) as [x|] eqn:Hx.
  - repeat split.
    + destruct (set_header "X-Item-Id" _ _); [|reflexivity].
      destruct (set_header "X-Item-Name" _ _); reflexivity.
    + destruct (invalid_name _); [reflexivity|].
      destruct (ToNumber _) as [n|e]; [|reflexivity].
      destruct (invalid_price n); reflexivity.
    + destruct (negb _ && _); [reflexivity|].
      destruct (is_undefined (get_prop (str "price") req_body));
        [reflexivity|].
      destruct (ToNumber _) as [n|e]; [|reflexivity].
      destruct (invalid_price n); reflexivity.
    + unfold findItem in Hx. now rewrite (findIndex_some _ _ _ Hx).
  - repeat split.
    unfold findItem in Hx. now rewrite (findIndex_none _ _ Hx).
Qed.

Lemma find_without (p : item -> bool) (l1 l2 : list item) (x : item) :
  p x = false -> find p (l1 ++ x :: l2) = find p (l1 ++ l2).
Proof.
  intros Hx. induction l1 as [|a l1 IH]; simpl.
  - now rewrite Hx.
  - now rewrite IH.
Qed.

(** A Delete that answers 204 took out one item, the first with the id,
    and nothing else: the counter and the order of the others are kept, the
    list is one shorter, and a lookup by any id that this item does not have
    finds what it found before. *)
Theorem delete_frame (param : jsstring) (st st' : store) (resp : response) :
  delete_item param st = (Normal resp, st') ->
  status resp = 204 ->
  exists l1 x l2,
    at_item (StringToNumber param) st l1 x l2
    /\ st' = {| nextId := nextId st; items := l1 ++ l2 |}
    /\ content resp = Empty
    /\ (List.length (items st') + 1 = List.length (items st))%nat
    /\ forall k, has_id k x = false -> findItem k st' = findItem k st.
Proof.
  intros H Hs.
  destruct (findItem (StringToNumber param) st) as [x|] eqn:Hx.
  - destruct (findItem_at _ _ _ Hx) as (l1 & l2 & Hat).
    rewrite (delete_item_at param st l1 x l2 Hat) in H.
    injection H as <- <-. exists l1, x, l2.
    destruct Hat as (Hl & Hl1 & Hpx).
    repeat split; try assumption.
    + simpl. rewrite Hl, !length_app. simpl. lia.
    + intros k Hk. unfold findItem. simpl. rewrite Hl.
      symmetry. now apply find_without.
  - rewrite (delete_item_absent _ _ Hx) in H.
    injection H as <- <-. discriminate.
Qed.

Lemma delete_frame_seed :
  exists l1 x l2,
    at_item (StringToNumber (str "1")) seed l1 x l2
    /\ snd (delete_item (str "1") seed)
       = {| nextId := nextId seed; items := l1 ++ l2 |}
    /\ Empty = Empty
    /\ (List.length (items (snd (delete_item (str "1") seed))) + 1
        = List.length (items seed))%nat
    /\ forall k, has_id k x = false ->
         findItem k (snd (delete_item (str "1") seed)) = findItem k seed.
Proof.
  apply (delete_frame (str "1") seed (snd (delete_item (str "1") seed))
           {| status := 204; headers := [("X-Demo", "items-delete")];
              content := Empty |}); reflexivity.
Defined.

Lemma find_app_some (p : item -> bool) (l1 l2 : list item) (y : item) :
  find p l1 = Some y -> find p (l1 ++ l2) = Some y.
Proof.
  induction l1 as [|a l1 IH]; simpl; [discriminate|].
  destruct (p a); auto.
Qed.

(** A Create that answers 201 appended one item and did nothing else: the
    item returned has the old value of the counter for its [id], the counter
    was incremented, which below [2^53] moves it up by one, the items that
    were there are there in their order with the new one last, the answer
    names [/items/<id>] under [Location], the list is one longer, and
    whatever a lookup found before it still finds. *)
Theorem create_frame (req_body : props) (st st' : store) (resp : response) :
  post_items req_body st = (Normal resp, st') ->
  status resp = 201 ->
  exists it,
    content resp = JsonItem it
    /\ id it = nextId st
    /\ st' = {| nextId := increment (nextId st); items := items st ++ [it] |}
    /\ (0 <= nextId st < 2 ^ 53 -> nextId st' = nextId st + 1)
    /\ In ("Location", String.append "/items/" (show_int (id it)))
          (headers resp)
    /\ fst (get_items st')
       = Normal {| status := 200; headers := [("X-Demo", "items-list")];
                   content := JsonList (Z.of_nat (List.length (items st)) + 1)
                                       (items st ++ [it]) |}
    /\ forall k y, findItem k st = Some y -> findItem k st' = Some y.
Proof.
  intros H Hs. unfold post_items in H.
  destruct (invalid_name _); [injection H as <- <-; discriminate|].
  destruct (ToNumber _) as [n|e]; [|discriminate].
  destruct (invalid_price n); [injection H as <- <-; discriminate|].
  injection H as <- <-. eexists. repeat split.
  - simpl. apply increment_below.
  - simpl. tauto.
  - unfold get_items. simpl. rewrite length_app. simpl.
    do 3 f_equal. lia.
  - intros k y Hk. unfold findItem in *. simpl. now apply find_app_some.
Qed.

Lemma create_frame_seed :
  exists it,
    JsonItem {| id := 3; name := str "Marker"; price := two_point_75 |}
    = JsonItem it
    /\ id it = 3
    /\ snd (post_items marker seed)
       = {| nextId := increment 3; items := items seed ++ [it] |}
    /\ (0 <= 3 < 2 ^ 53 -> nextId (snd (post_items marker seed)) = 3 + 1)
    /\ In ("Location", String.append "/items/" (show_int (id it)))
          [("X-Demo", "items-create"); ("Location", "/items/3")]
    /\ fst (get_items (snd (post_items marker seed)))
       = Normal {| status := 200; headers := [("X-Demo", "items-list")];
                   content := JsonList (Z.of_nat (List.length (items seed)) + 1)
                                       (items seed ++ [it]) |}
    /\ forall k y, findItem k seed = Some y ->
         findItem k (snd (post_items marker seed)) = Some y.
Proof.
  apply (create_frame marker seed (snd (post_items marker seed))
           (created_response
              {| id := 3; name := str "Marker"; price := two_point_75 |}));
    reflexivity.
Defined.

(** *** Repeating and comparing updates *)

Lemma with_item_twice (st : store) l1 a b l2 :
  with_item (with_item st l1 a l2) l1 b l2 = with_item st l1 b l2.
Proof. reflexivity. Qed.

Lemma at_item_with (id0 : number) (st : store) l1 x y l2 :
  at_item id0 st l1 x l2 -> id y = id x ->
  at_item id0 (with_item st l1 y l2) l1 y l2.
Proof.
  intros (_ & Hl1 & Hx) Hid. repeat split; [assumption|].
  unfold has_id in *. now rewrite Hid.
Qed.

(** Replace is idempotent: sent again to the store it left, the request gets
    the same answer and leaves that store as it is. *)
Theorem put_idempotent (param : jsstring) (req_body : props) (st : store) :
  put_item param req_body (snd (put_item param req_body st))
  = put_item param req_body st.
Proof.
  destruct (findItem (StringToNumber param) st) as [x|] eqn:Hx.
  - destruct (findItem_at _ _ _ Hx) as (l1 & l2 & Hat).
    rewrite (put_item_at param req_body st l1 x l2 Hat). cbv zeta.
    destruct (invalid_name _) eqn:Hn.
    + cbn [snd]. rewrite (put_item_at param req_body st l1 x l2 Hat).
      cbv zeta. now rewrite Hn.
    + destruct (ToNumber _) as [n|e] eqn:Hp.
      * destruct (invalid_price n) eqn:Hi.
        -- cbn [snd]. rewrite (put_item_at param req_body st l1 x l2 Hat).
           cbv zeta. now rewrite Hn, Hp, Hi.
        -- cbn [snd].
           match goal with
           | |- put_item _ _ (with_item _ _ ?y _) = _ =>
               rewrite (put_item_at param req_body _ l1 y l2
                          (at_item_with _ st l1 x y l2 Hat eq_refl))
           end.
           cbv zeta. rewrite Hn, Hp, Hi. reflexivity.
      * cbn [snd]. rewrite (put_item_at param req_body st l1 x l2 Hat).
        cbv zeta. now rewrite Hn, Hp.
  - rewrite (findItem_none_put _ _ _ Hx). cbn [snd].
    now rewrite (findItem_none_put _ _ _ Hx).
Qed.

(** PartialUpdate is idempotent as well, also when it fails half way. *)
Theorem patch_idempotent (param : jsstring) (req_body : props) (st : store) :
  patch_item param req_body (snd (patch_item param req_body st))
  = patch_item param req_body st.
Proof.
  destruct (findItem (StringToNumber param) st) as [x|] eqn:Hx.
  - destruct (findItem_at _ _ _ Hx) as (l1 & l2 & Hat).
    rewrite (patch_item_at param req_body st l1 x l2 Hat). cbv zeta.
    destruct (negb _ && _) eqn:Hn.
    + cbn [snd]. rewrite (patch_item_at param req_body st l1 x l2 Hat).
      cbv zeta. now rewrite Hn.
    + set (x1 := if is_undefined (get_prop (str "name") req_body) then x
                 else set_name (trimmed (get_prop (str "name") req_body)) x).
      assert (Hid1 : id x1 = id x) by (unfold x1; now destruct (is_undefined _)).
      assert (Hx1 : (if is_undefined (get_prop (str "name") req_body) then x1
                     else set_name (trimmed (get_prop (str "name") req_body)) x1)
                    = x1).
      { unfold x1. now destruct (is_undefined _). }
      pose proof (at_item_with _ st l1 x x1 l2 Hat Hid1) as Hat1.
      destruct (is_undefined (get_prop (str "price") req_body)) eqn:Hu.
      * cbn [snd]. rewrite (patch_item_at param req_body _ l1 x1 l2 Hat1).
        cbv zeta. now rewrite Hn, Hx1, Hu.
      * destruct (ToNumber _) as [n|e] eqn:Hp.
        -- destruct (invalid_price n) eqn:Hi.
           ++ cbn [snd]. rewrite (patch_item_at param req_body _ l1 x1 l2 Hat1).
              cbv zeta. now rewrite Hn, Hx1, Hu, Hp, Hi.
           ++ cbn [snd].
              assert (Hat2 : at_item (StringToNumber param)
                               (with_item st l1 (set_price n x1) l2)
                               l1 (set_price n x1) l2).
              { apply (at_item_with _ st l1 x _ l2 Hat). exact Hid1. }
              rewrite (patch_item_at param req_body _ l1 _ l2 Hat2).
              cbv zeta. rewrite Hn, Hu, Hp, Hi.
              assert (Hx2 : set_price n
                              (if is_undefined (get_prop (str "name") req_body)
                               then set_price n x1
                               else set_name
                                      (trimmed (get_prop (str "name") req_body))
                                      (set_price n x1))
                            = set_price n x1).
              { unfold x1. now destruct (is_undefined _). }
              now rewrite Hx2.
        -- cbn [snd]. rewrite (patch_item_at param req_body _ l1 x1 l2 Hat1).
           cbv zeta. now rewrite Hn, Hx1, Hu, Hp.
  - rewrite (findItem_none_patch _ _ _ Hx). cbn [snd].
    now rewrite (findItem_none_patch _ _ _ Hx).
Qed.

(** A PartialUpdate that holds both fields, both valid, does to the store
    what Replace does with the same body, and returns the same item. *)
Theorem patch_as_put (param : jsstring) (req_body : props) (st : store)
  (s' : jsstring) (n : number) :
  name_ok (get_prop (str "name") req_body) s' ->
  price_ok (get_prop (str "price") req_body) n ->
  snd (patch_item param req_body st) = snd (put_item param req_body st)
  /\ status_of (fst (patch_item param req_body st))
     = status_of (fst (put_item param req_body st))
  /\ body_of (fst (patch_item param req_body st))
     = body_of (fst (put_item param req_body st)).
Proof.
  intros Hn Hp.
  destruct (findItem (StringToNumber param) st) as [x|] eqn:Hx.
  - destruct (findItem_at _ _ _ Hx) as (l1 & l2 & Hat).
    rewrite (put_item_valid param req_body st l1 x l2 s' n Hat Hn Hp).
    rewrite (patch_item_valid param req_body st l1 x l2 s' n Hat
               (or_intror Hn) (or_intror Hp)).
    repeat split.
  - rewrite (findItem_none_put _ _ _ Hx), (findItem_none_patch _ _ _ Hx).
    repeat split.
Qed.

Lemma patch_as_put_seed :
  snd (patch_item (str "2") pencil seed) = snd (put_item (str "2") pencil seed)
  /\ status_of (fst (patch_item (str "2") pencil seed))
     = status_of (fst (put_item (str "2") pencil seed))
  /\ body_of (fst (patch_item (str "2") pencil seed))
     = body_of (fst (put_item (str "2") pencil seed)).
Proof.
  apply (patch_as_put (str "2") pencil seed (str "Pencil") (decimal "2")).
  - exists (str " Pencil "). repeat split. discriminate.
  - repeat split.
Defined.

(** *** HEAD *)

Lemma latin1_str (s : string) : latin1 (str s) = s.
Proof.
  unfold latin1, str. rewrite map_map.
  rewrite (map_ext _ (fun a => a)) by apply ascii_N_embedding.
  rewrite map_id. apply string_of_list_ascii_of_string.
Qed.

Lemma digit_header_char (c : code_unit) :
  digit_of 10 c <> None -> header_char c = true.
Proof.
  intros H. apply digit_bounds in H. unfold header_char.
  apply orb_true_iff. left. apply orb_true_iff. right.
  apply andb_true_iff. split; apply Z.leb_le; lia.
Qed.

Lemma numeral_header_safe (d : Decimal.uint) :
  forallb header_char (str (NilEmpty.string_of_uint d)) = true.
Proof.
  apply forallb_forall. intros c Hc.
  pose proof (numeral_chars d) as H. rewrite Forall_forall in H.
  now apply digit_header_char, H.
Qed.

(** The decimal numeral of any integer can go into a header. *)
Lemma show_int_header_safe (z : Z) :
  forallb header_char (str (show_int z)) = true.
Proof.
  unfold show_int. destruct z as [|p|p]; cbn [Z.to_int NilZero.string_of_int].
  - reflexivity.
  - unfold NilZero.string_of_uint.
    destruct (Pos.to_uint p) eqn:E; try reflexivity;
      rewrite <- E; apply numeral_header_safe.
  - rewrite str_cons. cbn [forallb]. apply andb_true_iff. split; [reflexivity|].
    unfold NilZero.string_of_uint.
    destruct (Pos.to_uint p) eqn:E; try reflexivity;
      rewrite <- E; apply numeral_header_safe.
Qed.

(** The handler written for HEAD, run on an item that exists, never touches
    the store.  If every character of the item's name is one a header value
    may hold, it answers 200 with no body, the decimal numeral of the id
    under [X-Item-Id] and the name under [X-Item-Name]; if the name holds any
    other character, setting the header throws, and this handler raises a
    [TypeError] where the handler of GET answers 200. *)
Theorem head_of_existing (param : jsstring) (st : store) (x : item) :
  findItem (StringToNumber param) st = Some x ->
  snd (head_item param st) = st
  /\ (forallb header_char (name x) = true ->
      fst (head_item param st)
      = Normal {| status := 200;
                  headers := [ ("X-Item-Id", show_int (id x));
                               ("X-Item-Name", latin1 (name x)) ];
                  content := Empty |})
  /\ (forallb header_char (name x) = false ->
      fst (head_item param st) = Throw TypeError
      /\ status_of (fst (get_item param st)) = Some 200).
Proof.
  intros Hx. unfold head_item, get_item, set_header. rewrite Hx.
  rewrite show_int_header_safe, latin1_str. cbn [app].
  destruct (forallb header_char (name x)); repeat split; try discriminate.
Qed.

Lemma head_of_existing_wide :
  let st := snd (post_items wide_name seed) in
  let x := {| id := 3; name := [26085%N; 26412%N]; price := one |} in
  findItem (StringToNumber (str "3")) st = Some x
  /\ forallb header_char (name x) = false
  /\ fst (head_item (str "3") st) = Throw TypeError
  /\ status_of (fst (get_item (str "3") st)) = Some 200.
Proof.
  intros st x.
  assert (Hx : findItem (StringToNumber (str "3")) st = Some x) by reflexivity.
  split; [exact Hx|]. split; [reflexivity|].
  exact (proj2 (proj2 (head_of_existing (str "3") st x Hx)) eq_refl).
Defined.

(** *** When [Number(price)] throws *)

Section ValueInduction.

Variable P : value -> Prop.
Hypothesis P_undefined : P VUndefined.
Hypothesis P_null : P VNull.
Hypothesis P_bool : forall b, P (VBool b).
Hypothesis P_number : forall n, P (VNumber n).
Hypothesis P_string : forall s, P (VString s).
Hypothesis P_array : forall elems, Forall P elems -> P (VArray elems).
Hypothesis P_object : forall props, P (VObject props).

(** Induction on values, with the hypothesis for every element of an
    array. *)
Fixpoint value_elements_ind (v : value) : P v :=
  match v with
  | VUndefined => P_undefined
  | VNull => P_null
  | VBool b => P_bool b
  | VNumber n => P_number n
  | VString s => P_string s
  | VArray elems =>
      P_array elems
        ((fix all (l : list value) : Forall P l :=
            match l with
            | [] => Forall_nil P
            | x :: r => Forall_cons x (value_elements_ind x) (all r)
            end) elems)
  | VObject props => P_object props
  end.

End ValueInduction.

Lemma join_text_throws (v : value) : throws (join_text v) = unconvertible v.
Proof.
  induction v as [| | | | |elems IH|props] using value_elements_ind;
    try reflexivity.
  - cbn [join_text unconvertible].
    induction IH as [|x l Hx _ IHl]; [reflexivity|].
    cbn [existsb]. rewrite <- Hx, <- IHl.
    destruct l as [|y l].
    + now rewrite orb_false_r.
    + destruct (join_text x); [|reflexivity].
      cbn [throws orb].
      match goal with |- throws (match ?j with _ => _ end) = throws ?j' =>
        change j' with j; destruct j end; reflexivity.
  - cbn [join_text unconvertible]. now destruct (has_own _ _).
Qed.

(** [Number(v)] throws exactly when [v] is, or holds through arrays, an
    object with a [toString] property of its own. *)
Lemma ToNumber_throws (v : value) : throws (ToNumber v) = unconvertible v.
Proof.
  destruct v as [| | | | |elems|ps]; try reflexivity.
  - rewrite <- join_text_throws. unfold ToNumber.
    now destruct (join_text (VArray elems)).
  - rewrite <- join_text_throws. unfold ToNumber.
    now destruct (join_text (VObject ps)).
Qed.

(** The handlers raise an exception in one way only.  Create throws exactly
    when the name passes its check and the price is, or holds through arrays,
    an object with a [toString] property of its own; Replace and
    PartialUpdate throw exactly when, besides, the item exists (for
    PartialUpdate a missing name passes the check); Get and Delete never
    throw.  A price that is a number, a string, a boolean,
    [null] or missing never makes a handler throw. *)
Theorem handlers_throw_iff (param : jsstring) (req_body : props) (st : store) :
  let name0 := get_prop (str "name") req_body in
  let price0 := get_prop (str "price") req_body in
  let found := negb (absent (StringToNumber param) st) in
  throws (fst (post_items req_body st))
  = negb (invalid_name name0) && unconvertible price0
  /\ throws (fst (put_item param req_body st))
     = found && negb (invalid_name name0) && unconvertible price0
  /\ throws (fst (patch_item param req_body st))
     = found && negb (negb (is_undefined name0) && invalid_name name0)
       && unconvertible price0
  /\ throws (fst (get_item param st)) = false
  /\ throws (fst (delete_item param st)) = false.
Proof.
  intros name0 price0 found. unfold found, absent.
  unfold post_items, put_item, patch_item, get_item, delete_item.
  fold name0 price0. rewrite <- !ToNumber_throws.
  repeat split.
  - destruct (invalid_name name0); [reflexivity|].
    destruct (ToNumber price0) as [n|e]; [|reflexivity].
    now destruct (invalid_price n).
  - destruct (findItem _ st); [|reflexivity].
    destruct (invalid_name name0); [reflexivity|].
    destruct (ToNumber price0) as [n|e]; [|reflexivity].
    now destruct (invalid_price n).
  - destruct (findItem _ st); [|reflexivity].
    destruct (negb (is_undefined name0) && invalid_name name0); [reflexivity|].
    destruct (is_undefined price0) eqn:Hu.
    + destruct price0; try discriminate. reflexivity.
    + destruct (ToNumber price0) as [n|e]; [|reflexivity].
      now destruct (invalid_price n).
  - now destruct (findItem _ st).
  - now destruct (findIndex _ _ =? -1).
Qed.

(** *** The listening port *)

Lemma show_int_not_nil (z : Z) : is_nil (str (show_int z)) = false.
Proof.
  unfold show_int. destruct z as [|p|p]; cbn [Z.to_int NilZero.string_of_int];
    try reflexivity.
  unfold NilZero.string_of_uint.
  pose proof (Unsigned.to_uint_nonnil p) as H.
  destruct (Pos.to_uint p); [contradiction|..]; reflexivity.
Qed.

(** With [PORT] unset or empty the server listens on 3000; with [PORT] set to
    the decimal numeral of an integer from 0 to below [2^53] it listens on
    that integer. *)
Theorem port_of_numeral (z : Z) :
  0 <= z < 2 ^ 53 ->
  eq_int (port (Some (str (show_int z)))) z = true
  /\ eq_int (port None) 3000 = true
  /\ eq_int (port (Some [])) 3000 = true.
Proof.
  intros Hz. unfold port. rewrite show_int_not_nil.
  split; [now apply numeral_reads_back | split; reflexivity].
Qed.

Lemma port_of_numeral_8080 :
  0 <= 8080 < 2 ^ 53
  /\ eq_int (port (Some (str (show_int 8080)))) 8080 = true
  /\ eq_int (port None) 3000 = true
  /\ eq_int (port (Some [])) 3000 = true.
Proof.
  assert (H : 0 <= 8080 < 2 ^ 53) by lia.
  split; [exact H|]. exact (port_of_numeral 8080 H).
Defined.

(** *** List and Get *)

Lemma find_unique (id0 : number) (l : list item) (x : item) :
  NoDup (List.map id l) -> In x l -> has_id id0 x = true ->
  find (has_id id0) l = Some x.
Proof.
  induction l as [|a l IH]; simpl; [contradiction|].
  intros Hnd [-> | Hin] Hx.
  - now rewrite Hx.
  - inversion Hnd as [|? ? Hnotin Hnd']; subst.
    destruct (has_id id0 a) eqn:Ha; [|now apply IH].
    elim Hnotin. rewrite (eq_int_inj id0 (id a) (id x) Ha Hx).
    now apply in_map.
Qed.

(** In a store of the process the list and the single lookups agree: List
    answers 200 with all items and their number, and, the counter being
    below [2^53], each item it shows is what Get answers for a parameter that
    reads as its id; the decimal numeral of the id is such a parameter. *)
Theorem list_and_get_agree (st : store) (issued : list Z) (x : item) :
  reachable st issued ->
  In x (items st) ->
  get_items st
  = (Normal {| status := 200; headers := [("X-Demo", "items-list")];
               content := JsonList (Z.of_nat (List.length (items st)))
                                   (items st) |}, st)
  /\ (nextId st < 2 ^ 53 ->
      forall param,
      eq_int (StringToNumber param) (id x) = true ->
      get_item param st
      = (Normal {| status := 200; headers := [("X-Demo", "items-get")];
                   content := JsonItem x |}, st))
  /\ (nextId st < 2 ^ 53 ->
      get_item (str (show_int (id x))) st
      = (Normal {| status := 200; headers := [("X-Demo", "items-get")];
                   content := JsonItem x |}, st)).
Proof.
  intros Hr Hin. split; [reflexivity|].
  assert (Hget : nextId st < 2 ^ 53 ->
            forall param,
            eq_int (StringToNumber param) (id x) = true ->
            get_item param st
            = (Normal {| status := 200; headers := [("X-Demo", "items-get")];
                         content := JsonItem x |}, st)).
  { intros Hb param Hid.
    destruct (reachable_inv _ _ Hr Hb) as (Hnd & _ & _).
    unfold get_item, findItem.
    now rewrite (find_unique _ _ x Hnd Hin Hid). }
  split; [exact Hget|].
  intros Hb. apply (Hget Hb), numeral_reads_back.
  destruct (reachable_inv _ _ Hr Hb) as (_ & Hlt & _).
  pose proof (reachable_good _ _ Hr) as Hpos.
  rewrite Forall_forall in Hpos, Hlt.
  destruct (Hpos x Hin) as (Hid & _).
  specialize (Hlt (id x) (in_map id _ _ Hin)).
  lia.
Qed.

Lemma list_and_get_agree_seed :
  reachable seed [1; 2]
  /\ In pen (items seed)
  /\ get_items seed
     = (Normal {| status := 200; headers := [("X-Demo", "items-list")];
                  content := JsonList (Z.of_nat (List.length (items seed)))
                                      (items seed) |}, seed)
  /\ (nextId seed < 2 ^ 53 ->
      forall param,
      eq_int (StringToNumber param) (id pen) = true ->
      get_item param seed
      = (Normal {| status := 200; headers := [("X-Demo", "items-get")];
                   content := JsonItem pen |}, seed))
  /\ (nextId seed < 2 ^ 53 ->
      get_item (str (show_int (id pen))) seed
      = (Normal {| status := 200; headers := [("X-Demo", "items-get")];
                   content := JsonItem pen |}, seed)).
Proof.
  assert (Hin : In pen (items seed)) by (right; left; reflexivity).
  split; [exact reach_seed|]. split; [exact Hin|].
  exact (list_and_get_agree seed [1; 2] pen reach_seed Hin).
Defined.

(** *** Routing *)

(** The handler registered with [app.head] is never run: the route made by
    [app.get('/items/:id')] is registered before it and takes HEAD requests
    as well, so HEAD on an item path is answered by the handler of GET.  The
    other handlers are each reached by their own method and path. *)
Theorem head_route_shadowed :
  (forall v p, dispatch v p <> Run_head)
  /\ dispatch HEAD (Some Pat_item) = Run_get
  /\ dispatch GET (Some Pat_item) = Run_get
  /\ dispatch HEAD (Some Pat_items) = Run_list
  /\ dispatch POST (Some Pat_items) = Run_post
  /\ dispatch PUT (Some Pat_item) = Run_put
  /\ dispatch PATCH (Some Pat_item) = Run_patch
  /\ dispatch DELETE (Some Pat_item) = Run_delete
  /\ dispatch OPTIONS (Some Pat_items) = Run_options
  /\ dispatch OPTIONS (Some Pat_item) = Run_fallback.
Proof.
  split; [|repeat split].
  intros v [pat|]; [|discriminate].
  destruct v, pat; discriminate.
Qed.

(** *** The ids issued *)

Lemma countdown_succ (lo n : nat) :
  countdown lo (S n) = Z.of_nat (lo + n) :: countdown lo n.
Proof.
  unfold countdown. rewrite seq_S, rev_app_distr. reflexivity.
Qed.

Lemma effect_countdown (st st' : store) (r : completion response)
  (issued : list Z) :
  3 <= nextId st <= 2 ^ 53 -> nextId st' < 2 ^ 53 ->
  issued = countdown 3 (Z.to_nat (nextId st - 3)) ++ [1; 2] ->
  effect st r st' ->
  issue r issued = countdown 3 (Z.to_nat (nextId st' - 3)) ++ [1; 2].
Proof.
  intros Hn Hb Hi [Hids Hnext Hc | it Hc Hid -> | l1 x l2 Hc Hl ->];
    unfold issue; rewrite Hc.
  - now rewrite Hnext.
  - simpl nextId in *.
    assert (Hn' : 0 <= nextId st <= 2 ^ 53) by lia.
    destruct (increment_range (nextId st) Hn') as [_ Hinc].
    rewrite (Hinc Hb).
    replace (Z.to_nat (nextId st + 1 - 3))
      with (S (Z.to_nat (nextId st - 3))) by lia.
    rewrite countdown_succ, Hi, Hid. simpl. f_equal. lia.
  - assumption.
Qed.

(** Ids are issued consecutively: in every store of the process with the
    counter below [2^53], the ids issued so far are exactly the seed ids 1
    and 2 and then 3, 4, ... up to [nextId - 1], one per successful Create.
    A request that fails, or a Delete, uses up no id. *)
Theorem ids_issued_consecutively (st : store) (issued : list Z) :
  reachable st issued ->
  nextId st < 2 ^ 53 ->
  issued = countdown 3 (Z.to_nat (nextId st - 3)) ++ [1; 2].
Proof.
  induction 1 as [|st issued req Hr IH]; intros Hb; [reflexivity|].
  pose proof (reachable_counter _ _ Hr) as Hn.
  assert (Hn' : 0 <= nextId st <= 2 ^ 53) by lia.
  pose proof (effect_counter _ _ _ Hn' (handle_effect req st)) as Hm.
  apply (effect_countdown st);
    [exact Hn | exact Hb | apply IH; lia | apply handle_effect].
Qed.

Lemma ids_issued_consecutively_run :
  let st1 := snd (handle (POST_items marker) seed) in
  let st2 := snd (handle (DELETE_item (str "3")) st1) in
  let st3 := snd (handle (POST_items negative_price) st2) in
  let st4 := snd (handle (POST_items marker) st3) in
  reachable st4 [4; 3; 1; 2]
  /\ nextId st4 < 2 ^ 53
  /\ [4; 3; 1; 2] = countdown 3 (Z.to_nat (nextId st4 - 3)) ++ [1; 2].
Proof.
  intros st1 st2 st3 st4.
  assert (Hr : reachable st4 [4; 3; 1; 2]).
  { exact (reach_step _ _ (POST_items marker)
             (reach_step _ _ (POST_items negative_price)
                (reach_step _ _ (DELETE_item (str "3"))
                   (reach_step _ _ (POST_items marker) reach_seed)))). }
  assert (Hb : nextId st4 < 2 ^ 53) by reflexivity.
  split; [exact Hr|]. split; [exact Hb|].
  exact (ids_issued_consecutively st4 [4; 3; 1; 2] Hr Hb).
Defined.
